(** * The string and list tools of mcp-redis over a Redis client

    A shallow embedding of [src/tools/string.py] and [src/tools/list.py].
    Every tool acquires the shared connection, issues one or two client
    commands and returns a text, with [RedisError] turned into an error
    text.  Python values are a tagged tree, Python [str] is a sequence of
    code points, Python [bytes] is a Rocq [string] (a sequence of 8-bit
    characters), exceptions are an explicit outcome, and the client is a
    record of state-passing functions.

    The values are those on which [str], [repr] and [json.dumps] act as
    conversions: integers within the interpreter's limit on the digits of
    [str] (4300 by default) and containers nested within its recursion
    limit.  Past these limits the conversions raise [ValueError] and
    [RecursionError]; these are not modelled, and no statement below
    depends on a conversion raising nothing else. *)

From Stdlib Require Import ZArith NArith String Ascii List Bool Floats Lia DecimalString DecimalZ DecimalPos.
From stdpp Require Import gmap strings.
Import ListNotations.

Set Warnings "-register-all,-inexact-float".
Local Open Scope N_scope.

(** ** Text and bytes *)

(** A Python [str]: its code points, in order. *)
Abbreviation pystr := (list N).

(** A text literal of the source: one code point per character. *)
Definition lit (s : string) : pystr := map N_of_ascii (list_ascii_of_string s).

(** Code points that UTF-8 can carry: everything below 0x110000 except the
    surrogate block. *)
Definition scalar (c : N) : bool :=
  (c <? 0xD800) || ((0xDFFF <? c) && (c <? 0x110000)).

(** [str.encode("utf-8")] on one code point; [None] is [UnicodeEncodeError]. *)
Definition utf8_char (c : N) : option (list ascii) :=
  if c <? 0x80 then Some [ascii_of_N c]
  else if c <? 0x800 then
    Some [ascii_of_N (0xC0 + c / 64); ascii_of_N (0x80 + c mod 64)]
  else if c <? 0x10000 then
    if (0xD800 <=? c) && (c <=? 0xDFFF) then None
    else Some [ascii_of_N (0xE0 + c / 4096);
               ascii_of_N (0x80 + (c / 64) mod 64);
               ascii_of_N (0x80 + c mod 64)]
  else if c <? 0x110000 then
    Some [ascii_of_N (0xF0 + c / 262144);
          ascii_of_N (0x80 + (c / 4096) mod 64);
          ascii_of_N (0x80 + (c / 64) mod 64);
          ascii_of_N (0x80 + c mod 64)]
  else None.

Fixpoint utf8_encode (s : pystr) : option string :=
  match s with
  | [] => Some EmptyString
  | c :: s' =>
      match utf8_char c, utf8_encode s' with
      | Some bs, Some rest => Some (string_of_list_ascii bs ++ rest)%string
      | _, _ => None
      end
  end.

(** A continuation byte, 10xxxxxx. *)
Definition cont (y : N) : bool := (0x80 <=? y) && (y <? 0xC0).

(** [bytes.decode("utf-8")], strict: overlong forms, surrogates, values
    past 0x10FFFF and truncated sequences are refused; [None] is
    [UnicodeDecodeError]. *)
Fixpoint utf8_decode (b : string) : option pystr :=
  match b with
  | EmptyString => Some []
  | String a0 r0 =>
      let x := N_of_ascii a0 in
      if x <? 0x80 then option_map (cons x) (utf8_decode r0)
      else if x <? 0xC2 then None
      else if x <? 0xE0 then
        match r0 with
        | String a1 r1 =>
            let y := N_of_ascii a1 in
            if cont y
            then option_map (cons ((x - 0xC0) * 64 + (y - 0x80))) (utf8_decode r1)
            else None
        | _ => None
        end
      else if x <? 0xF0 then
        match r0 with
        | String a1 (String a2 r2) =>
            let y := N_of_ascii a1 in
            let z := N_of_ascii a2 in
            let c := (x - 0xE0) * 4096 + (y - 0x80) * 64 + (z - 0x80) in
            if cont y && cont z && (0x800 <=? c) && scalar c
            then option_map (cons c) (utf8_decode r2)
            else None
        | _ => None
        end
      else if x <? 0xF5 then
        match r0 with
        | String a1 (String a2 (String a3 r3)) =>
            let y := N_of_ascii a1 in
            let z := N_of_ascii a2 in
            let w := N_of_ascii a3 in
            let c := (x - 0xF0) * 262144 + (y - 0x80) * 4096
                     + (z - 0x80) * 64 + (w - 0x80) in
            if cont y && cont z && cont w && (0x10000 <=? c) && (c <? 0x110000)
            then option_map (cons c) (utf8_decode r3)
            else None
        | _ => None
        end
      else None
  end.

(** ** Python values, exceptions and outcomes *)

(** Hashable scalars used as dictionary keys. *)
Inductive pykey :=
| KNone
| KBool (b : bool)
| KInt (z : Z)
| KFloat (f : float)
| KStr (s : pystr)
| KBytes (b : string).

(** The values the tools receive and the client hands back.  A [dict]
    keeps its items in insertion order. *)
Inductive pyval :=
| VNone
| VBool (b : bool)
| VInt (z : Z)
| VFloat (f : float)
| VStr (s : pystr)
| VBytes (b : string)
| VList (l : list pyval)
| VDict (d : list (pykey * pyval)).

(** The exception classes that occur: [redis.exceptions.RedisError] (with
    all its subclasses) carries the text that [str(e)] gives. *)
Inductive exn :=
| RedisError (msg : pystr)
| TypeError
| UnicodeEncodeError
| UnicodeDecodeError.

Inductive outcome (A : Type) :=
| Return (a : A)
| Raise (e : exn).
Arguments Return {A} a.
Arguments Raise {A} e.

Definition is_redis_error (e : exn) : bool :=
  match e with RedisError _ => true | _ => false end.

(** Python truthiness, as [if value] and [not values] test it. *)
Definition truthy (v : pyval) : bool :=
  match v with
  | VNone => false
  | VBool b => b
  | VInt z => negb (z =? 0)%Z
  | VFloat f => negb (f =? 0)%float
  | VStr s => match s with [] => false | _ => true end
  | VBytes b => match b with EmptyString => false | _ => true end
  | VList l => match l with [] => false | _ => true end
  | VDict d => match d with [] => false | _ => true end
  end.

(** [if expiration:] on an optional int: [None] and [0] are false; the
    branch taken on true has the int at hand. *)
Definition if_int (t : option Z) : option Z :=
  match t with
  | None => None
  | Some z => if (z =? 0)%Z then None else Some z
  end.

(** [int.__repr__]: decimal digits with a leading minus sign (for an int
    within the digit limit of [str], see above). *)
Definition int_text (z : Z) : string := NilZero.string_of_int (Z.to_int z).

Definition int_repr (z : Z) : pystr := lit (int_text z).

Definition str_encode (s : pystr) : outcome string :=
  match utf8_encode s with
  | Some b => Return b
  | None => Raise UnicodeEncodeError
  end.

Definition bytes_decode (b : string) : outcome pystr :=
  match utf8_decode b with
  | Some s => Return s
  | None => Raise UnicodeDecodeError
  end.

(** ** The JSON encoder, [json.dumps] with its defaults *)

Definition hex_digit (n : N) : N := if n <? 10 then 48 + n else 87 + n.

(** The escape [\uXXXX], four lower-case hexadecimal digits. *)
Definition u_escape (n : N) : pystr :=
  [92; 117; hex_digit ((n / 4096) mod 16); hex_digit ((n / 256) mod 16);
   hex_digit ((n / 16) mod 16); hex_digit (n mod 16)].

(** One character under [ensure_ascii]: the short escapes, printable ASCII
    as it is, [\uXXXX] for the rest, a surrogate pair past the BMP. *)
Definition json_char (c : N) : pystr :=
  if c =? 34 then [92; 34]
  else if c =? 92 then [92; 92]
  else if c =? 10 then [92; 110]
  else if c =? 13 then [92; 114]
  else if c =? 9 then [92; 116]
  else if c =? 12 then [92; 102]
  else if c =? 8 then [92; 98]
  else if (32 <=? c) && (c <=? 126) then [c]
  else if c <? 0x10000 then u_escape c
  else
    let v := c - 0x10000 in
    u_escape (0xD800 + (v / 1024) mod 1024) ++ u_escape (0xDC00 + v mod 1024).

Definition json_string (s : pystr) : pystr := [34] ++ flat_map json_char s ++ [34].

(** [", ".join(items)]. *)
Fixpoint join_comma (items : list pystr) : pystr :=
  match items with
  | [] => []
  | [x] => x
  | x :: rest => x ++ lit ", " ++ join_comma rest
  end.

(** The items of a container, each through [enc], in order; the first
    that fails ends the encoding. *)
Fixpoint encode_items {A} (enc : A -> option pystr) (l : list A) : option (list pystr) :=
  match l with
  | [] => Some []
  | x :: l' =>
      match enc x, encode_items enc l' with
      | Some a, Some b => Some (a :: b)
      | _, _ => None
      end
  end.

Section Python.

(** [float.__repr__], the shortest text that reads back to the float: left
    open, with ASCII results by type. *)
Variable float_repr : float -> string.

(** [repr] of bytes and containers, as [str()] and f-strings show them:
    left open. *)
Variable py_repr : pyval -> pystr.

(** [str(value)], which is also what [f"{value}"] inserts. *)
Definition py_str (v : pyval) : pystr :=
  match v with
  | VNone => lit "None"
  | VBool true => lit "True"
  | VBool false => lit "False"
  | VInt z => int_repr z
  | VFloat f => lit (float_repr f)
  | VStr s => s
  | VBytes _ | VList _ | VDict _ => py_repr v
  end.

Definition json_float (f : float) : pystr :=
  if negb (f =? f)%float then lit "NaN"
  else if (f =? infinity)%float then lit "Infinity"
  else if (f =? neg_infinity)%float then lit "-Infinity"
  else lit (float_repr f).

(** A dictionary key as JSON text; other key types are a [TypeError]. *)
Definition json_key (k : pykey) : option pystr :=
  match k with
  | KStr s => Some s
  | KFloat f => Some (json_float f)
  | KBool true => Some (lit "true")
  | KBool false => Some (lit "false")
  | KNone => Some (lit "null")
  | KInt z => Some (int_repr z)
  | KBytes _ => None
  end.

(** [None] is the [TypeError] of a value that is not JSON serializable
    (values within the limits named above). *)
Fixpoint json_encode (v : pyval) : option pystr :=
  match v with
  | VNone => Some (lit "null")
  | VBool true => Some (lit "true")
  | VBool false => Some (lit "false")
  | VInt z => Some (int_repr z)
  | VFloat f => Some (json_float f)
  | VStr s => Some (json_string s)
  | VBytes _ => None
  | VList l =>
      match encode_items json_encode l with
      | Some xs => Some (lit "[" ++ join_comma xs ++ lit "]")
      | None => None
      end
  | VDict d =>
      match
        encode_items
          (fun kx : pykey * pyval =>
             match json_key (fst kx), json_encode (snd kx) with
             | Some a, Some b => Some (json_string a ++ lit ": " ++ b)
             | _, _ => None
             end) d
      with
      | Some xs => Some (lit "{" ++ join_comma xs ++ lit "}")
      | None => None
      end
  end.

Definition json_dumps (v : pyval) : outcome pystr :=
  match json_encode v with
  | Some s => Return s
  | None => Raise TypeError
  end.

End Python.

(** ** Computations against the store *)

(** A tool runs against the state of the world behind the connection; an
    exception leaves the effects made so far in place. *)
Definition M (St A : Type) : Type := St -> outcome A * St.

Definition ret {St A} (a : A) : M St A := fun st => (Return a, st).

Definition raise {St A} (e : exn) : M St A := fun st => (Raise e, st).

Definition bind {St A B} (c : M St A) (k : A -> M St B) : M St B :=
  fun st =>
    match c st with
    | (Return a, st') => k a st'
    | (Raise e, st') => (Raise e, st')
    end.

(** A pure Python computation inside a tool. *)
Definition lift {St A} (o : outcome A) : M St A := fun st => (o, st).

(** [try: body  except <class> as e: handler]: the handler chooses the
    exceptions it takes; the others propagate. *)
Definition try_except {St A} (body : M St A) (handler : exn -> option (M St A)) : M St A :=
  fun st =>
    match body st with
    | (Return a, st') => (Return a, st')
    | (Raise e, st') =>
        match handler e with
        | Some h => h st'
        | None => (Raise e, st')
        end
    end.

Declare Scope tool_scope.
Delimit Scope tool_scope with tool.
Notation "x <- c ;; k" := (bind c (fun x => k))
  (at level 100, c at next level, right associativity) : tool_scope.
Notation "c ;;; k" := (bind c (fun _ => k))
  (at level 100, right associativity) : tool_scope.

(** [except RedisError as e: return <text built from str(e)>]. *)
Definition except_RedisError {St} (text : pystr -> pystr) (e : exn) : option (M St pyval) :=
  match e with
  | RedisError msg => Some (ret (VStr (text msg)))
  | _ => None
  end.

(** [except UnicodeDecodeError: return value]. *)
Definition except_UnicodeDecodeError {St} (value : pyval) (e : exn) : option (M St pyval) :=
  match e with
  | UnicodeDecodeError => Some (ret value)
  | _ => None
  end.

(** The client methods the tools call, with the arguments as passed. *)
Inductive command :=
| SET (name : pystr) (value : pyval)
| SETEX (name : pystr) (time : Z) (value : pyval)
| GET (name : pystr)
| INCR (name : pystr)
| DECR (name : pystr)
| INCRBYFLOAT (name : pystr) (amount : float)
| LPUSH (name : pystr) (values : list pyval)
| RPUSH (name : pystr) (values : list pyval)
| LPOP (name : pystr)
| RPOP (name : pystr)
| LRANGE (name : pystr) (start stop : Z)
| LLEN (name : pystr)
| EXPIRE (name : pystr) (time : Z).

(** What the tools see of [src/common/connection.py] and of the Redis
    client: the connection provider and the handle's methods, each free
    to return any value or to raise. *)
Record client (St : Type) := Client {
  get_connection : M St unit;
  execute : command -> M St pyval
}.
Arguments get_connection {St} _.
Arguments execute {St} _ _.

(** ** The texts of the tools *)

(** What each tool returns for a [RedisError e], [msg] being [str(e)]. *)
Definition set_error (key msg : pystr) : pystr :=
  lit "Error setting key " ++ key ++ lit ": " ++ msg.

Definition get_error (key msg : pystr) : pystr :=
  lit "Error retrieving key " ++ key ++ lit ": " ++ msg.

Definition incr_error (key msg : pystr) : pystr :=
  lit "Error incrementing key " ++ key ++ lit ": " ++ msg.

Definition decr_error (key msg : pystr) : pystr :=
  lit "Error decrementing key " ++ key ++ lit ": " ++ msg.

Definition incrbyfloat_error (key msg : pystr) : pystr :=
  lit "Error incrementing key " ++ key ++ lit " by float: " ++ msg.

Definition decrbyfloat_error (key msg : pystr) : pystr :=
  lit "Error decrementing key " ++ key ++ lit " by float: " ++ msg.

Definition push_error (name msg : pystr) : pystr :=
  lit "Error pushing value(s) to list '" ++ name ++ lit "': " ++ msg.

Definition pop_error (name msg : pystr) : pystr :=
  lit "Error popping value from list '" ++ name ++ lit "': " ++ msg.

Definition lrange_error (name msg : pystr) : pystr :=
  lit "Error retrieving values from list '" ++ name ++ lit "': " ++ msg.

Definition llen_error (name msg : pystr) : pystr :=
  lit "Error retrieving length of list '" ++ name ++ lit "': " ++ msg.

(** The text [get] gives for a key that is not there. *)
Definition missing_key_message (key : pystr) : pystr :=
  lit "Key " ++ key ++ lit " does not exist".

(** The text both pops and the ranged read give for "nothing there". *)
Definition empty_list_message (name : pystr) : pystr :=
  lit "List '" ++ name ++ lit "' is empty or does not exist.".

(** ** The tools *)

Section Tools.

Variable float_repr : float -> string.
Variable py_repr : pyval -> pystr.
Context {St : Type} (r : client St).

Local Open Scope tool_scope.
Local Abbreviation py_str := (py_str float_repr py_repr).
Local Abbreviation json_dumps := (json_dumps float_repr).

(** string.py, lines 23-31: bytes as they are, a dict through
    [json.dumps], anything else through [str]; text is then encoded. *)
Definition encode_value (value : pyval) : outcome pyval :=
  match
    match value with
    | VBytes _ => Return value
    | VDict _ =>
        match json_dumps value with
        | Return s => Return (VStr s)
        | Raise e => Raise e
        end
    | _ => Return (VStr (py_str value))
    end
  with
  | Return (VStr s) =>
      match str_encode s with
      | Return b => Return (VBytes b)
      | Raise e => Raise e
      end
  | other => other
  end.

Definition set (key : pystr) (value : pyval) (expiration : option Z) : M St pyval :=
  encoded_value <- lift (encode_value value) ;;
  try_except
    (get_connection r ;;;
     match if_int expiration with
     | Some t => execute r (SETEX key t encoded_value)
     | None => execute r (SET key encoded_value)
     end ;;;
     ret (VStr (lit "Successfully set " ++ key ++
                match if_int expiration with
                | Some t => lit " with expiration " ++ int_repr t ++ lit " seconds"
                | None => []
                end)))
    (except_RedisError (set_error key)).

Definition get (key : pystr) : M St pyval :=
  try_except
    (get_connection r ;;;
     value <- execute r (GET key) ;;
     match value with
     | VNone => ret (VStr (missing_key_message key))
     | VBytes b =>
         try_except
           (text <- lift (bytes_decode b) ;; ret (VStr text))
           (except_UnicodeDecodeError value)
     | _ => ret value
     end)
    (except_RedisError (get_error key)).

Definition incr (key : pystr) : M St pyval :=
  try_except
    (get_connection r ;;;
     new_value <- execute r (INCR key) ;;
     ret (VStr (lit "Key " ++ key ++ lit " incremented to " ++ py_str new_value)))
    (except_RedisError (incr_error key)).

Definition decr (key : pystr) : M St pyval :=
  try_except
    (get_connection r ;;;
     new_value <- execute r (DECR key) ;;
     ret (VStr (lit "Key " ++ key ++ lit " decremented to " ++ py_str new_value)))
    (except_RedisError (decr_error key)).

Definition incrbyfloat (key : pystr) (amount : float) : M St pyval :=
  try_except
    (get_connection r ;;;
     new_value <- execute r (INCRBYFLOAT key amount) ;;
     ret (VStr (lit "Key " ++ key ++ lit " incremented by " ++ lit (float_repr amount)
                ++ lit ", new value: " ++ py_str new_value)))
    (except_RedisError (incrbyfloat_error key)).

Definition decrbyfloat (key : pystr) (amount : float) : M St pyval :=
  try_except
    (get_connection r ;;;
     new_value <- execute r (INCRBYFLOAT key (- amount)%float) ;;
     ret (VStr (lit "Key " ++ key ++ lit " decremented by " ++ lit (float_repr amount)
                ++ lit ", new value: " ++ py_str new_value)))
    (except_RedisError (decrbyfloat_error key)).

(** [json.dumps(v) if isinstance(v, dict) else v]. *)
Definition dump_if_dict (v : pyval) : outcome pyval :=
  match v with
  | VDict _ =>
      match json_dumps v with
      | Return s => Return (VStr s)
      | Raise e => Raise e
      end
  | _ => Return v
  end.

(** The list comprehension over the supplied values, left to right; the
    first element that fails ends it. *)
Fixpoint dump_dicts (value : list pyval) : outcome (list pyval) :=
  match value with
  | [] => Return []
  | v :: rest =>
      match dump_if_dict v with
      | Return x =>
          match dump_dicts rest with
          | Return xs => Return (x :: xs)
          | Raise e => Raise e
          end
      | Raise e => Raise e
      end
  end.

(** [if expire: r.expire(name, expire)]. *)
Definition expire_if (name : pystr) (expire : option Z) : M St unit :=
  match if_int expire with
  | Some t => execute r (EXPIRE name t) ;;; ret tt
  | None => ret tt
  end.

Definition lpush (name : pystr) (value : pyval) (expire : option Z) : M St pyval :=
  try_except
    (get_connection r ;;;
     match value with
     | VList l =>
         vals <- lift (dump_dicts l) ;;
         execute r (LPUSH name (rev vals))
     | VDict _ =>
         s <- lift (json_dumps value) ;;
         execute r (LPUSH name [VStr s])
     | _ => execute r (LPUSH name [value])
     end ;;;
     expire_if name expire ;;;
     ret (VStr (lit "Value(s) '" ++ py_str value
                ++ lit "' pushed to the left of list '" ++ name ++ lit "'.")))
    (except_RedisError (push_error name)).

Definition rpush (name : pystr) (value : pyval) (expire : option Z) : M St pyval :=
  try_except
    (get_connection r ;;;
     match value with
     | VList l =>
         vals <- lift (dump_dicts l) ;;
         execute r (RPUSH name vals)
     | VDict _ =>
         s <- lift (json_dumps value) ;;
         execute r (RPUSH name [VStr s])
     | _ => execute r (RPUSH name [value])
     end ;;;
     expire_if name expire ;;;
     ret (VStr (lit "Value(s) '" ++ py_str value
                ++ lit "' pushed to the right of list '" ++ name ++ lit "'.")))
    (except_RedisError (push_error name)).

Definition lpop (name : pystr) : M St pyval :=
  try_except
    (get_connection r ;;;
     value <- execute r (LPOP name) ;;
     ret (if truthy value then value else VStr (empty_list_message name)))
    (except_RedisError (pop_error name)).

Definition rpop (name : pystr) : M St pyval :=
  try_except
    (get_connection r ;;;
     value <- execute r (RPOP name) ;;
     ret (if truthy value then value else VStr (empty_list_message name)))
    (except_RedisError (pop_error name)).

Definition lrange (name : pystr) (start stop : Z) : M St pyval :=
  try_except
    (get_connection r ;;;
     values <- execute r (LRANGE name start stop) ;;
     if negb (truthy values)
     then ret (VStr (empty_list_message name))
     else s <- lift (json_dumps values) ;; ret (VStr s))
    (except_RedisError (lrange_error name)).

Definition llen (name : pystr) : M St pyval :=
  try_except
    (get_connection r ;;; execute r (LLEN name))
    (except_RedisError (llen_error name)).

(** The callable surface: one request per tool. *)
Inductive request :=
| Set_ (key : pystr) (value : pyval) (expiration : option Z)
| Get (key : pystr)
| Incr (key : pystr)
| Decr (key : pystr)
| IncrByFloat (key : pystr) (amount : float)
| DecrByFloat (key : pystr) (amount : float)
| LPush (name : pystr) (value : pyval) (expire : option Z)
| RPush (name : pystr) (value : pyval) (expire : option Z)
| LPop (name : pystr)
| RPop (name : pystr)
| LRange (name : pystr) (start stop : Z)
| LLen (name : pystr).

Definition call (q : request) : M St pyval :=
  match q with
  | Set_ key value expiration => set key value expiration
  | Get key => get key
  | Incr key => incr key
  | Decr key => decr key
  | IncrByFloat key amount => incrbyfloat key amount
  | DecrByFloat key amount => decrbyfloat key amount
  | LPush name value expire => lpush name value expire
  | RPush name value expire => rpush name value expire
  | LPop name => lpop name
  | RPop name => rpop name
  | LRange name start stop => lrange name start stop
  | LLen name => llen name
  end.

End Tools.

(** ** The commands a tool issues *)

(** A client that also keeps the list of the commands it was given, in
    order of issue. *)
Definition logged {St} (r : client St) : client (St * list command) :=
  {| get_connection := fun s =>
       let (o, st') := get_connection r (fst s) in (o, (st', snd s));
     execute := fun c s =>
       let (o, st') := execute r c (fst s) in (o, (st', snd s ++ [c])) |}.

(** The commands a computation issues from a given state of the world. *)
Definition issued {St A} (run : client (St * list command) -> M (St * list command) A)
    (r : client St) (st : St) : list command :=
  snd (snd (run (logged r) (st, []))).

(** ** A reference store

    The store behind the connection, for the properties that speak of
    what is stored: a Redis keyspace of string and list values with their
    time-to-live, driven through a client that encodes the arguments and
    decodes the replies the way redis-py does.  No clock runs: a
    time-to-live is recorded and never elapses. *)

Inductive payload :=
| PString (b : string)
| PList (l : list string).

Record entry := Entry { data : payload; ttl : option Z }.

Definition response_error {A} (msg : string) : outcome A := Raise (RedisError (lit msg)).

Definition wrongtype {A} : outcome A :=
  response_error "WRONGTYPE Operation against a key holding the wrong kind of value".

(** A stored text the store takes for a 64-bit integer: the canonical
    decimal form, nothing else. *)
Definition parse_int (b : string) : option Z :=
  match NilZero.int_of_string b with
  | Some d =>
      let z := Z.of_int d in
      if String.eqb (int_text z) b && (- 2 ^ 63 <=? z)%Z && (z <? 2 ^ 63)%Z
      then Some z else None
  | None => None
  end.

(** The range of the server's integers. *)
Definition int64 (z : Z) : bool := (- 2 ^ 63 <=? z)%Z && (z <? 2 ^ 63)%Z.

(** The elements with index in [start, stop], both ends counted from the
    tail when negative. *)
Definition range_of (l : list string) (start stop : Z) : list string :=
  let len := Z.of_nat (length l) in
  let start := if (start <? 0)%Z then (start + len)%Z else start in
  let stop := if (stop <? 0)%Z then (stop + len)%Z else stop in
  let start := if (start <? 0)%Z then 0%Z else start in
  if (stop <? start)%Z || (len <=? start)%Z then []
  else
    let stop := if (len <=? stop)%Z then (len - 1)%Z else stop in
    take (Z.to_nat (stop - start + 1)) (drop (Z.to_nat start) l).

Section Store.

Variable float_repr : float -> string.

(** The [decode_responses] setting of the connection, which
    [src/common/connection.py] fixes: replies come back as [str] when it
    is on, as [bytes] when it is off. *)
Variable decode_responses : bool.

(** The server's float arithmetic, left open (it adds decimal texts in
    extended precision): for the stored text, none for a key that is not
    there, and the text of the increment, the text INCRBYFLOAT stores, or
    the message of its refusal.  And the float that the client reads from
    the reply. *)
Variable float_incr : option string -> string -> string + string.
Variable reply_float : string -> float.

(** Whether the server can keep a time-to-live given in seconds: the
    deadline, in milliseconds from the server's clock, has to fit 64
    bits.  And the message of its refusal for the named command, whose
    wording differs between server versions.  Both left open. *)
Variable time_in_range : Z -> bool.
Variable invalid_expire : string -> string.

Local Open Scope tool_scope.

(** The client packs an argument: bytes as they are, text as UTF-8,
    numbers as the UTF-8 of their [repr]; anything else is a [DataError],
    a [RedisError]. *)
Definition wire (v : pyval) : outcome string :=
  match v with
  | VBytes b => Return b
  | VStr s => str_encode s
  | VInt z => str_encode (int_repr z)
  | VFloat f => str_encode (lit (float_repr f))
  | VBool _ =>
      response_error "Invalid input of type: 'bool'. Convert to a bytes, string, int or float first."
  | VNone =>
      response_error "Invalid input of type: 'NoneType'. Convert to a bytes, string, int or float first."
  | VList _ =>
      response_error "Invalid input of type: 'list'. Convert to a bytes, string, int or float first."
  | VDict _ =>
      response_error "Invalid input of type: 'dict'. Convert to a bytes, string, int or float first."
  end.

Fixpoint wire_all (vs : list pyval) : outcome (list string) :=
  match vs with
  | [] => Return []
  | v :: rest =>
      match wire v with
      | Return b =>
          match wire_all rest with
          | Return bs => Return (b :: bs)
          | Raise e => Raise e
          end
      | Raise e => Raise e
      end
  end.

(** The client unpacks a bulk reply. *)
Definition reply_bulk (b : string) : outcome pyval :=
  if decode_responses then
    match bytes_decode b with
    | Return s => Return (VStr s)
    | Raise e => Raise e
    end
  else Return (VBytes b).

Fixpoint reply_bulks (bs : list string) : outcome (list pyval) :=
  match bs with
  | [] => Return []
  | b :: rest =>
      match reply_bulk b with
      | Return v =>
          match reply_bulks rest with
          | Return vs => Return (v :: vs)
          | Raise e => Raise e
          end
      | Raise e => Raise e
      end
  end.

Definition read : M (gmap string entry) (gmap string entry) := fun db => (Return db, db).

Definition write (db' : gmap string entry) : M (gmap string entry) unit :=
  fun _ => (Return tt, db').

(** INCRBY: a missing key counts as 0, the time-to-live is kept. *)
Definition incrby (name : pystr) (delta : Z) : M (gmap string entry) pyval :=
  k <- lift (wire (VStr name)) ;;
  db <- read ;;
  cur <- lift
    match db !! k with
    | None => Return (0%Z, None)
    | Some (Entry (PString b) t) =>
        match parse_int b with
        | Some z => Return (z, t)
        | None => response_error "value is not an integer or out of range"
        end
    | Some (Entry (PList _) _) => wrongtype
    end ;;
  let z := (fst cur + delta)%Z in
  if (z <? - 2 ^ 63)%Z || (2 ^ 63 <=? z)%Z
  then lift (response_error "increment or decrement would overflow")
  else write (<[k := Entry (PString (int_text z)) (snd cur)]> db) ;;; ret (VInt z).

(** LPUSH and RPUSH: the values go in one by one, each at the named end. *)
Definition push (left : bool) (name : pystr) (values : list pyval) : M (gmap string entry) pyval :=
  k <- lift (wire (VStr name)) ;;
  vs <- lift (wire_all values) ;;
  match vs with
  | [] =>
      lift (response_error
              (if left then "wrong number of arguments for 'lpush' command"
               else "wrong number of arguments for 'rpush' command"))
  | _ :: _ =>
      db <- read ;;
      cur <- lift
        match db !! k with
        | None => Return ([], None)
        | Some (Entry (PList l) t) => Return (l, t)
        | Some (Entry (PString _) _) => wrongtype
        end ;;
      let l' :=
        fold_left (fun acc v => if left then v :: acc else acc ++ [v]) vs (fst cur) in
      write (<[k := Entry (PList l') (snd cur)]> db) ;;;
      ret (VInt (Z.of_nat (length l')))
  end.

(** LPOP and RPOP: a list that becomes empty is removed with its key. *)
Definition pop (left : bool) (name : pystr) : M (gmap string entry) pyval :=
  k <- lift (wire (VStr name)) ;;
  db <- read ;;
  match db !! k with
  | None => ret VNone
  | Some (Entry (PString _) _) => lift wrongtype
  | Some (Entry (PList l) t) =>
      match (if left then l else rev l) with
      | [] => ret VNone
      | x :: rest =>
          let l' := if left then rest else rev rest in
          write (match l' with
                 | [] => delete k db
                 | _ :: _ => <[k := Entry (PList l') t]> db
                 end) ;;;
          lift (reply_bulk x)
      end
  end.

Definition store_execute (c : command) : M (gmap string entry) pyval :=
  match c with
  | SET name value =>
      k <- lift (wire (VStr name)) ;;
      v <- lift (wire value) ;;
      db <- read ;;
      write (<[k := Entry (PString v) None]> db) ;;;
      ret (VBool true)
  | SETEX name time value =>
      k <- lift (wire (VStr name)) ;;
      v <- lift (wire value) ;;
      if negb (int64 time)
      then lift (response_error "value is not an integer or out of range")
      else if (time <=? 0)%Z || negb (time_in_range time)
      then lift (response_error (invalid_expire "setex"))
      else
        db <- read ;;
        write (<[k := Entry (PString v) (Some time)]> db) ;;;
        ret (VBool true)
  | GET name =>
      k <- lift (wire (VStr name)) ;;
      db <- read ;;
      match db !! k with
      | None => ret VNone
      | Some (Entry (PString b) _) => lift (reply_bulk b)
      | Some (Entry (PList _) _) => lift wrongtype
      end
  | INCR name => incrby name 1
  | DECR name => incrby name (-1)
  | INCRBYFLOAT name amount =>
      k <- lift (wire (VStr name)) ;;
      a <- lift (wire (VFloat amount)) ;;
      db <- read ;;
      cur <- lift
        match db !! k with
        | None => Return (None, None)
        | Some (Entry (PString b) t) => Return (Some b, t)
        | Some (Entry (PList _) _) => wrongtype
        end ;;
      match float_incr (fst cur) a with
      | inl b' =>
          write (<[k := Entry (PString b') (snd cur)]> db) ;;;
          ret (VFloat (reply_float b'))
      | inr msg => lift (response_error msg)
      end
  | LPUSH name values => push true name values
  | RPUSH name values => push false name values
  | LPOP name => pop true name
  | RPOP name => pop false name
  | LRANGE name start stop =>
      k <- lift (wire (VStr name)) ;;
      db <- read ;;
      if negb (int64 start && int64 stop)
      then lift (response_error "value is not an integer or out of range")
      else
        match db !! k with
        | None => ret (VList [])
        | Some (Entry (PString _) _) => lift wrongtype
        | Some (Entry (PList l) _) =>
            vs <- lift (reply_bulks (range_of l start stop)) ;; ret (VList vs)
        end
  | LLEN name =>
      k <- lift (wire (VStr name)) ;;
      db <- read ;;
      match db !! k with
      | None => ret (VInt 0)
      | Some (Entry (PString _) _) => lift wrongtype
      | Some (Entry (PList l) _) => ret (VInt (Z.of_nat (length l)))
      end
  | EXPIRE name time =>
      k <- lift (wire (VStr name)) ;;
      db <- read ;;
      if negb (int64 time)
      then lift (response_error "value is not an integer or out of range")
      else if negb (time_in_range time)
      then lift (response_error (invalid_expire "expire"))
      else
        match db !! k with
        | None => ret (VBool false)
        | Some (Entry d _) =>
            write (if (time <=? 0)%Z then delete k db
                   else <[k := Entry d (Some time)]> db) ;;;
            ret (VBool true)
        end
  end.

(** The reference client: the connection is there, the commands act on
    the keyspace. *)
Definition store : client (gmap string entry) :=
  {| get_connection := ret tt; execute := store_execute |}.

(** The list stored under a key, empty when there is none. *)
Definition stored_list (db : gmap string entry) (k : string) : list string :=
  match db !! k with
  | Some (Entry (PList l) _) => l
  | _ => []
  end.

End Store.

(** ** Renderings for evaluation

    On inputs whose messages show no float, bytes or container, the open
    renderings play no part; these stand in for them. *)

Definition plain_float (f : float) : string := "0.0".

Definition plain_repr (v : pyval) : pystr := lit "...".

(** ** Inputs and clients of the examples *)

(** A server that keeps no float, for the examples that use none. *)
Definition no_floats (cur : option string) (amount : string) : string + string :=
  inr "value is not a valid float"%string.

Definition no_reply (reply : string) : float := 0%float.

(** The times a server at the start of its clock can keep: the seconds
    whose milliseconds fit 64 bits. *)
Definition milliseconds_fit (t : Z) : bool :=
  (- 2 ^ 63 / 1000 <=? t)%Z && (t <=? (2 ^ 63 - 1) / 1000)%Z.

(** The refusal of a time, in the wording of one server version. *)
Definition invalid_expire_text (cmd : string) : string :=
  ("invalid expire time in '" ++ cmd ++ "' command")%string.

(** The store with replies handed over as bytes, and with replies decoded
    as text; its floats are not used below. *)
Definition bytes_store : client (gmap string entry) :=
  store plain_float false no_floats no_reply milliseconds_fit invalid_expire_text.

Definition text_store : client (gmap string entry) :=
  store plain_float true no_floats no_reply milliseconds_fit invalid_expire_text.

(** A connection provider that fails, and a client that refuses every
    command. *)
Definition unreachable (msg : pystr) : client unit :=
  {| get_connection := raise (RedisError msg);
     execute := fun _ => raise (RedisError msg) |}.

Definition refusing (msg : pystr) : client unit :=
  {| get_connection := ret tt;
     execute := fun _ => raise (RedisError msg) |}.

(** One byte that is not UTF-8. *)
Definition byte_ff : string := String (ascii_of_N 0xFF) EmptyString.

(** The bytes of the JSON text of the dictionary with the one item
    [x: True]. *)
Definition x_true_bytes : string :=
  ("{" ++ String (ascii_of_N 34) "x" ++ String (ascii_of_N 34) ": true}")%string.

(** The floats of the float example with their texts: [repr] as Python
    writes them, and a server that adds them in binary64 and writes the
    sum the way the server does. *)
Definition example_repr (f : float) : string :=
  if (f =? 1e40)%float then "1e+40"
  else if (f =? -1e40)%float then "-1e+40"
  else if (f =? 0.25)%float then "0.25"
  else if (f =? -0.25)%float then "-0.25"
  else if (f =? 1.5)%float then "1.5"
  else if (f =? 1.75)%float then "1.75"
  else if (f =? 1)%float then "1.0"
  else "0.0".

Definition example_read (s : string) : option float :=
  if String.eqb s "1" then Some 1%float
  else if String.eqb s "0" then Some 0%float
  else if String.eqb s "1.5" then Some 1.5%float
  else if String.eqb s "1.75" then Some 1.75%float
  else if String.eqb s "0.25" then Some 0.25%float
  else if String.eqb s "-0.25" then Some (-0.25)%float
  else if String.eqb s "1e+40" then Some 1e40%float
  else if String.eqb s "-1e+40" then Some (-1e40)%float
  else None.

Definition example_write (f : float) : string :=
  if (f =? 1e40)%float then "1e+40"
  else if (f =? 1.5)%float then "1.5"
  else if (f =? 1.75)%float then "1.75"
  else if (f =? 1)%float then "1"
  else "0".

Definition example_incr (cur : option string) (amount : string) : string + string :=
  match match cur with Some b => example_read b | None => Some 0%float end,
        example_read amount with
  | Some x, Some a => inl (example_write (x + a)%float)
  | _, _ => inr "value is not a valid float"%string
  end.

Definition example_reply (reply : string) : float :=
  match example_read reply with
  | Some x => x
  | None => 0%float
  end.

Definition float_store : client (gmap string entry) :=
  store example_repr false example_incr example_reply milliseconds_fit invalid_expire_text.

(** ** The notions the statements use *)

Section Statements.

Variable float_repr : float -> string.
Variable py_repr : pyval -> pystr.

(** Lists and dictionaries, the structured values. *)
Definition structured (v : pyval) : bool :=
  match v with
  | VList _ | VDict _ => true
  | _ => false
  end.

Definition is_dict (v : pyval) : bool :=
  match v with
  | VDict _ => true
  | _ => false
  end.

(** A command that carries no dictionary among its values. *)
Definition native_dict_free (c : command) : bool :=
  match c with
  | SET _ v | SETEX _ _ v => negb (is_dict v)
  | LPUSH _ vs | RPUSH _ vs => forallb (fun v => negb (is_dict v)) vs
  | _ => true
  end.

(** An element of a pushed list and what is sent for it: the JSON text
    for a dictionary, the element itself otherwise. *)
Definition sent_for (v x : pyval) : Prop :=
  match v with
  | VDict _ => exists s, json_dumps float_repr v = Return s /\ x = VStr s
  | _ => x = v
  end.

(** A [RedisError] reaching the caller. *)
Definition redis_error_escapes (o : outcome pyval) : bool :=
  match o with
  | Raise (RedisError _) => true
  | _ => false
  end.

(** A client whose only exceptions are of class [RedisError]. *)
Definition raises_only_redis_errors {St} (r : client St) : Prop :=
  (forall st, match fst (get_connection r st) with
              | Raise e => is_redis_error e = true
              | Return _ => True
              end)
  /\ (forall c st, match fst (execute r c st) with
                   | Raise e => is_redis_error e = true
                   | Return _ => True
                   end).

(** The supplied value passes [json.dumps] and [encode]. *)
Definition converts (q : request) : bool :=
  match q with
  | Set_ _ value _ =>
      match encode_value float_repr py_repr value with
      | Return _ => true
      | Raise _ => false
      end
  | LPush _ value _ | RPush _ value _ =>
      match value with
      | VList l =>
          match dump_dicts float_repr l with
          | Return _ => true
          | Raise _ => false
          end
      | VDict _ =>
          match json_dumps float_repr value with
          | Return _ => true
          | Raise _ => false
          end
      | _ => true
      end
  | _ => true
  end.

(** The error text of each tool. *)
Definition error_text (q : request) (msg : pystr) : pystr :=
  match q with
  | Set_ key _ _ => set_error key msg
  | Get key => get_error key msg
  | Incr key => incr_error key msg
  | Decr key => decr_error key msg
  | IncrByFloat key _ => incrbyfloat_error key msg
  | DecrByFloat key _ => decrbyfloat_error key msg
  | LPush name _ _ | RPush name _ _ => push_error name msg
  | LPop name | RPop name => pop_error name msg
  | LRange name _ _ => lrange_error name msg
  | LLen name => llen_error name msg
  end.

(** An expiration the store accepts: none, 0 (not sent), or a positive
    time that the server can keep. *)
Definition accepted (time_in_range : Z -> bool) (expiration : option Z) : Prop :=
  match if_int expiration with
  | Some t => (0 < t)%Z /\ int64 t = true /\ time_in_range t = true
  | None => True
  end.

(** The bytes the store keeps for a pushed element: a dictionary goes
    through [json.dumps], then the client packs the element. *)
Definition stored_item (v : pyval) : outcome string :=
  match dump_if_dict float_repr v with
  | Return x => wire float_repr x
  | Raise e => Raise e
  end.

(** An element that is stored as the UTF-8 bytes of a text. *)
Definition stored_as_text (v : pyval) (t : pystr) : Prop :=
  exists b, stored_item v = Return b /\ utf8_decode b = Some t.

(** Code points below 256: what a literal, a number and the JSON encoder
    produce. *)
Definition small (s : pystr) : Prop := Forall (fun c => c < 256) s.

End Statements.

(** ** Further notions of the statements *)

Section MoreStatements.

Variable float_repr : float -> string.
Variable py_repr : pyval -> pystr.

(** The values a push hands to the store for the value it is given
    (list.py, lines 21-27 and 46-52): the elements of a list with each
    dictionary as its JSON text, reversed for a left push; one JSON text
    for a dictionary; the value itself otherwise. *)
Definition push_values (left : bool) (value : pyval) : outcome (list pyval) :=
  match value with
  | VList l =>
      match dump_dicts float_repr l with
      | Return vals => Return (if left then rev vals else vals)
      | Raise e => Raise e
      end
  | VDict _ =>
      match json_dumps float_repr value with
      | Return s => Return [VStr s]
      | Raise e => Raise e
      end
  | _ => Return [value]
  end.

Definition push_command (left : bool) (name : pystr) (vals : list pyval) : command :=
  if left then LPUSH name vals else RPUSH name vals.

(** The confirmation of a push. *)
Definition push_confirmation (left : bool) (name : pystr) (value : pyval) : pystr :=
  lit "Value(s) '" ++ py_str float_repr py_repr value
  ++ lit (if left then "' pushed to the left of list '"
          else "' pushed to the right of list '")
  ++ name ++ lit "'.".

(** The store command a tool issues first, once it has the connection:
    a write carries the converted value, and there is no command when the
    conversion raises. *)
Definition first_command (q : request) : outcome command :=
  match q with
  | Set_ key value expiration =>
      match encode_value float_repr py_repr value with
      | Return enc =>
          Return match if_int expiration with
                 | Some t => SETEX key t enc
                 | None => SET key enc
                 end
      | Raise e => Raise e
      end
  | Get key => Return (GET key)
  | Incr key => Return (INCR key)
  | Decr key => Return (DECR key)
  | IncrByFloat key amount => Return (INCRBYFLOAT key amount)
  | DecrByFloat key amount => Return (INCRBYFLOAT key (- amount)%float)
  | LPush name value _ =>
      match push_values true value with
      | Return vals => Return (push_command true name vals)
      | Raise e => Raise e
      end
  | RPush name value _ =>
      match push_values false value with
      | Return vals => Return (push_command false name vals)
      | Raise e => Raise e
      end
  | LPop name => Return (LPOP name)
  | RPop name => Return (RPOP name)
  | LRange name start stop => Return (LRANGE name start stop)
  | LLen name => Return (LLEN name)
  end.

(** [set] converts its value before the [try], the pushes inside it: the
    value of a [set] has to convert for the connection to be asked for. *)
Definition converted_first (q : request) : bool :=
  match q with
  | Set_ _ value _ =>
      match encode_value float_repr py_repr value with
      | Return _ => true
      | Raise _ => false
      end
  | _ => true
  end.

(** An exception that the client raises, at the connection or at a
    command, from some state. *)
Definition raised_by_client {St} (r : client St) (e : exn) : Prop :=
  (exists st, fst (get_connection r st) = Raise e)
  \/ (exists c st, fst (execute r c st) = Raise e).

(** An exception that [json.dumps] raises on the reply of LRANGE. *)
Definition raised_by_reply_dump (q : request) (e : exn) : Prop :=
  match q with
  | LRange _ _ _ => exists v, json_dumps float_repr v = Raise e
  | _ => False
  end.

(** A command that only reads. *)
Definition reads_only (c : command) : bool :=
  match c with
  | GET _ | LRANGE _ _ _ | LLEN _ => true
  | _ => false
  end.

(** The largest number of commands a tool issues. *)
Definition command_budget (q : request) : nat :=
  match q with
  | LPush _ _ _ | RPush _ _ _ => 2
  | _ => 1
  end.

(** Bytes that are ASCII text. *)
Definition ascii_text (s : string) : Prop :=
  Forall (fun a => N_of_ascii a < 128) (list_ascii_of_string s).

(** What [get] can return: not [None], and bytes only when they do not
    decode. *)
Definition get_result (v : pyval) : bool :=
  match v with
  | VNone => false
  | VBytes b => match utf8_decode b with Some _ => false | None => true end
  | _ => true
  end.

End MoreStatements.

(** * Properties *)

(** ** The model on small inputs *)

Example utf8_encode_euro : utf8_encode [0x20AC] = Some (String (ascii_of_N 0xE2) (String (ascii_of_N 0x82) (String (ascii_of_N 0xAC) EmptyString))).
Proof. reflexivity. Qed.

Example utf8_decode_euro : utf8_decode (String (ascii_of_N 0xE2) (String (ascii_of_N 0x82) (String (ascii_of_N 0xAC) EmptyString))) = Some [0x20AC].
Proof. reflexivity. Qed.

Example utf8_encode_surrogate : utf8_encode [0x61; 0xD800] = None.
Proof. reflexivity. Qed.

Example utf8_decode_lone_ff : utf8_decode (String (ascii_of_N 0xFF) EmptyString) = None.
Proof. reflexivity. Qed.

Example int_repr_neg : int_repr (-120) = lit "-120".
Proof. reflexivity. Qed.

Example json_dumps_nested :
  json_dumps (fun _ => "1.5"%string)
    (VDict [(KStr (lit "a"), VList [VInt 1; VNone; VStr [0xE9; 34]]); (KInt 2, VBool true)])
  = Return (lit "{" ++ [34] ++ lit "a" ++ [34] ++ lit ": [1, null, " ++ [34]
            ++ lit "\u00e9\" ++ [34; 34] ++ lit "], " ++ [34] ++ lit "2" ++ [34]
            ++ lit ": true}").
Proof. reflexivity. Qed.

Example json_dumps_bytes : json_dumps (fun _ => "1.5"%string) (VDict [(KStr (lit "a"), VBytes "x")]) = Raise TypeError.
Proof. reflexivity. Qed.

Example json_char_astral : json_char 0x1F600 = lit "\ud83d\ude00".
Proof. reflexivity. Qed.

Example parse_int_canonical :
  parse_int "-12" = Some (-12)%Z /\ parse_int "007" = None /\ parse_int "" = None
  /\ parse_int "9223372036854775808" = None.
Proof. repeat split; reflexivity. Qed.

Example range_of_all : range_of ["a"; "b"; "c"]%string 0 (-1) = ["a"; "b"; "c"]%string.
Proof. reflexivity. Qed.

Example range_of_tail : range_of ["a"; "b"; "c"]%string (-2) 10 = ["b"; "c"]%string.
Proof. reflexivity. Qed.

(** ** Round trip of the UTF-8 codec *)

(** Settle every comparison of the goal by linear arithmetic. *)
Ltac settle_cmp :=
  repeat match goal with
  | |- context [?a <? ?b] =>
      first [ rewrite (proj2 (N.ltb_lt a b)) by lia
            | rewrite (proj2 (N.ltb_ge a b)) by lia ]
  | |- context [?a <=? ?b] =>
      first [ rewrite (proj2 (N.leb_le a b)) by lia
            | rewrite (proj2 (N.leb_gt a b)) by lia ]
  end.

(** Name the base-64 digits of a code point, leaving linear facts only. *)
Ltac digits64 c q r :=
  pose proof (N.div_mod c 64 ltac:(lia)) as ?;
  pose proof (N.mod_lt c 64 ltac:(lia)) as ?;
  set (q := c / 64) in *; set (r := c mod 64) in *;
  clearbody q r.

Lemma N_of_ascii_of_N (n : N) : n < 256 -> N_of_ascii (ascii_of_N n) = n.
Proof. apply N_ascii_embedding. Qed.

Lemma utf8_char_scalar (c : N) : is_Some (utf8_char c) <-> scalar c = true.
Proof.
  assert (yes : forall x : list ascii, is_Some (Some x) <-> true = true)
    by (intros x; split; eauto).
  assert (no : is_Some (@None (list ascii)) <-> false = true)
    by (split; [intros [? ?] |]; discriminate).
  unfold utf8_char, scalar.
  destruct (N.ltb_spec c 0x80); [settle_cmp; apply yes |].
  destruct (N.ltb_spec c 0x800); [settle_cmp; apply yes |].
  destruct (N.ltb_spec c 0xD800); [settle_cmp; apply yes |].
  destruct (N.ltb_spec 0xDFFF c).
  - destruct (N.ltb_spec c 0x110000); settle_cmp; simpl; [| apply no].
    destruct (c <? 0x10000); apply yes.
  - settle_cmp; apply no.
Qed.

Lemma utf8_decode_char (c : N) (bs : list ascii) (rest : string) :
  utf8_char c = Some bs ->
  utf8_decode (string_of_list_ascii bs ++ rest) = option_map (cons c) (utf8_decode rest).
Proof.
  unfold utf8_char. intros H.
  destruct (N.ltb_spec c 0x80).
  { injection H as <-. simpl. rewrite N_of_ascii_of_N by lia.
    settle_cmp. reflexivity. }
  destruct (N.ltb_spec c 0x800).
  { injection H as <-. digits64 c q r. simpl.
    rewrite !N_of_ascii_of_N by lia. unfold cont. settle_cmp. simpl.
    replace ((192 + q - 192) * 64 + (128 + r - 128)) with c by lia.
    reflexivity. }
  destruct (N.ltb_spec c 0x10000).
  { replace (c / 4096) with (c / 64 / 64) in H by (rewrite N.Div0.div_div; reflexivity).
    assert (Hs : scalar c = negb ((0xD800 <=? c) && (c <=? 0xDFFF))).
    { unfold scalar. destruct (N.leb_spec 0xD800 c); destruct (N.leb_spec c 0xDFFF);
        settle_cmp; reflexivity. }
    destruct ((0xD800 <=? c) && (c <=? 0xDFFF)); [discriminate |].
    injection H as <-. digits64 c q r. digits64 q q1 r1. simpl.
    rewrite !N_of_ascii_of_N by lia.
    replace ((224 + q1 - 224) * 4096 + (128 + r1 - 128) * 64 + (128 + r - 128))
      with c by lia.
    rewrite Hs. unfold cont. settle_cmp. reflexivity. }
  destruct (N.ltb_spec c 0x110000); [| discriminate].
  replace (c / 262144) with (c / 64 / 64 / 64) in H
    by (rewrite !N.Div0.div_div; reflexivity).
  replace (c / 4096) with (c / 64 / 64) in H by (rewrite N.Div0.div_div; reflexivity).
  injection H as <-. digits64 c q r. digits64 q q1 r1. digits64 q1 q2 r2. simpl.
  rewrite !N_of_ascii_of_N by lia.
  replace ((240 + q2 - 240) * 262144 + (128 + r2 - 128) * 4096
           + (128 + r1 - 128) * 64 + (128 + r - 128)) with c by lia.
  unfold cont. settle_cmp. reflexivity.
Qed.

Lemma utf8_roundtrip (s : pystr) (b : string) :
  utf8_encode s = Some b -> utf8_decode b = Some s.
Proof.
  revert b. induction s as [| c s IH]; intros b H; simpl in H.
  - injection H as <-. reflexivity.
  - destruct (utf8_char c) as [bs |] eqn:Hc; [| discriminate].
    destruct (utf8_encode s) as [r |]; [| discriminate].
    injection H as <-. rewrite (utf8_decode_char _ _ _ Hc), (IH r eq_refl).
    reflexivity.
Qed.

Lemma utf8_encode_total (s : pystr) :
  forallb scalar s = true -> is_Some (utf8_encode s).
Proof.
  induction s as [| c s IH]; simpl; intros H; [eauto |].
  apply andb_prop in H as [Hc Hs].
  apply utf8_char_scalar in Hc as [bs ->]. destruct (IH Hs) as [r ->]. eauto.
Qed.

Arguments lit _ : simpl never.
Arguments int_repr _ : simpl never.
Arguments int_text _ : simpl never.
Arguments int64 _ : simpl never.
Arguments py_str _ _ _ : simpl never.
Arguments json_dumps _ _ : simpl never.
Arguments encode_value _ _ _ : simpl never.
Arguments str_encode _ : simpl never.
Arguments bytes_decode _ : simpl never.
Arguments utf8_decode _ : simpl never.
Arguments utf8_encode _ : simpl never.

Create HintDb tool.
#[local] Hint Unfold issued logged try_except bind ret lift raise
  except_RedisError except_UnicodeDecodeError expire_if
  set get incr decr incrbyfloat decrbyfloat lpush rpush lpop rpop lrange llen : tool.

(** Unfold the tool and the monad, then follow the known steps. *)
Ltac run_tool :=
  autounfold with tool in *; simpl in *;
  repeat match goal with
  | H : ?x = _ |- context [?x] => rewrite H; simpl
  end.

(** Case on the next answer of the client, or on the expiration test. *)
Ltac next_case :=
  match goal with
  | |- context [get_connection ?r ?st] =>
      destruct (get_connection r st) as [[[] | []] ?] eqn:?; simpl
  | |- context [execute ?r ?c ?st] =>
      destruct (execute r c st) as [[? | []] ?] eqn:?; simpl
  | |- context [if_int ?e] => destruct (if_int e) eqn:?; simpl
  end.

(** Case on the kind of a value the client handed back. *)
Ltac value_case :=
  match goal with
  | |- context [match ?v with VNone => _ | _ => _ end] => is_var v; destruct v; simpl
  end.

(** Check a property on each command of an explicit list. *)
Ltac each_issued :=
  repeat first
    [ apply List.Forall_nil
    | apply List.Forall_cons; [ solve [naive_solver eauto] |] ].

#[local] Opaque lit.

Section Laws.

Variable float_repr : float -> string.
Variable py_repr : pyval -> pystr.
Context {St : Type} (r : client St).

(** Keeping the log changes neither the result nor the state. *)
Lemma logged_same_run (q : request) (st : St) (log : list command) :
  fst (call float_repr py_repr (logged r) q (st, log)) = fst (call float_repr py_repr r q st)
  /\ fst (snd (call float_repr py_repr (logged r) q (st, log)))
     = snd (call float_repr py_repr r q st).
Proof.
  destruct q; unfold call; run_tool;
    try (destruct value; simpl);
    repeat first
      [ next_case
      | match goal with
        | |- context [encode_value float_repr py_repr ?v] =>
            destruct (encode_value float_repr py_repr v) as [? | []]; simpl
        | |- context [dump_dicts float_repr ?l] =>
            destruct (dump_dicts float_repr l) as [? | []]; simpl
        | |- context [json_dumps float_repr ?v] =>
            destruct (json_dumps float_repr v) as [? | []]; simpl
        | |- context [bytes_decode ?b] => destruct (bytes_decode b) as [? | []]; simpl
        | |- context [truthy ?v] => destruct (truthy v); simpl
        end
      | value_case ];
    split; reflexivity.
Qed.

(** C7. For every byte sequence the store hands to [get], the tool tries
    UTF-8 decoding: it returns the decoded text, or the same bytes when
    they do not decode; it returns in both cases (no exception), and the
    result is a text or the bytes, never a structured value. *)
Theorem get_decodes_or_keeps_bytes (key : pystr) (b : string) (st st1 st2 : St) :
  get_connection r st = (Return tt, st1) ->
  execute r (GET key) st1 = (Return (VBytes b), st2) ->
  get r key st =
    (Return (match utf8_decode b with Some text => VStr text | None => VBytes b end), st2)
  /\ (forall v, fst (get r key st) = Return v -> structured v = false).
Proof.
  intros Hc Hg.
  assert (E : get r key st =
    (Return (match utf8_decode b with Some text => VStr text | None => VBytes b end), st2)).
  { run_tool. unfold bytes_decode. destruct (utf8_decode b); reflexivity. }
  split; [exact E |].
  rewrite E. simpl. intros v [= <-]. destruct (utf8_decode b); reflexivity.
Qed.

(** C6, as amended. [set] issues exactly one store command: SETEX when an
    expiration is given and is not 0 (negative ones included), SET when
    it is absent or 0; when that command succeeds the confirmation names
    the expiration in the first case and not in the second. *)
Theorem set_one_store_call (key : pystr) (value enc : pyval) (expiration : option Z)
    (st st1 : St) :
  encode_value float_repr py_repr value = Return enc ->
  get_connection r st = (Return tt, st1) ->
  (forall t, expiration = Some t -> t <> 0%Z ->
     issued (fun r' => set float_repr py_repr r' key value expiration) r st
       = [SETEX key t enc]
     /\ forall v st2, execute r (SETEX key t enc) st1 = (Return v, st2) ->
          set float_repr py_repr r key value expiration st
          = (Return (VStr (lit "Successfully set " ++ key ++ lit " with expiration "
                           ++ int_repr t ++ lit " seconds")), st2))
  /\ (expiration = None \/ expiration = Some 0%Z ->
     issued (fun r' => set float_repr py_repr r' key value expiration) r st
       = [SET key enc]
     /\ forall v st2, execute r (SET key enc) st1 = (Return v, st2) ->
          set float_repr py_repr r key value expiration st
          = (Return (VStr (lit "Successfully set " ++ key)), st2)).
Proof.
  intros He Hc. split.
  - intros t -> Ht. apply Z.eqb_neq in Ht.
    split.
    + run_tool. destruct (execute r _ st1) as [[v | e] st2]; simpl;
        [reflexivity |]. destruct e; reflexivity.
    + intros v st2 Hx. run_tool. reflexivity.
  - intros Hn.
    assert (Hi : if_int expiration = None) by (destruct Hn as [-> | ->]; reflexivity).
    split.
    + run_tool. destruct (execute r _ st1) as [[v | e] st2]; simpl;
        [reflexivity |]. destruct e; reflexivity.
    + intros v st2 Hx. run_tool. rewrite app_nil_r. reflexivity.
Qed.

(** *** What reaches the store *)

Lemma encode_value_bytes (value enc : pyval) :
  encode_value float_repr py_repr value = Return enc -> exists b, enc = VBytes b.
Proof.
  unfold encode_value. intros H.
  destruct value; try (destruct (str_encode _); inversion H; eauto; fail);
    try (inversion H; eauto; fail).
  destruct (json_dumps float_repr (VDict d)); [| discriminate].
  destruct (str_encode a); inversion H; eauto.
Qed.

Lemma encode_value_dict (d : list (pykey * pyval)) (enc : pyval) :
  encode_value float_repr py_repr (VDict d) = Return enc ->
  exists s b, json_dumps float_repr (VDict d) = Return s /\ utf8_encode s = Some b /\ enc = VBytes b.
Proof.
  unfold encode_value, str_encode. intros H.
  destruct (json_dumps float_repr (VDict d)) as [s |]; [| discriminate].
  destruct (utf8_encode s) as [b |] eqn:Hb; inversion H; eauto.
Qed.

Lemma dump_dicts_sent (l vals : list pyval) :
  dump_dicts float_repr l = Return vals ->
  Forall2 (sent_for float_repr) l vals /\ forallb (fun v => negb (is_dict v)) vals = true.
Proof.
  revert vals. induction l as [| v l IH]; simpl; intros vals H.
  - injection H as <-. split; [constructor | reflexivity].
  - destruct (dump_if_dict float_repr v) as [x |] eqn:Hx; [| discriminate].
    destruct (dump_dicts float_repr l) as [xs |]; [| discriminate].
    injection H as <-. destruct (IH xs eq_refl) as [IH1 IH2].
    assert (sent_for float_repr v x /\ is_dict x = false) as [? Hd].
    { unfold dump_if_dict in Hx.
      destruct v; try (injection Hx as <-; split; reflexivity).
      destruct (json_dumps float_repr (VDict d)) as [s |] eqn:Hs; [| discriminate].
      injection Hx as <-. split; [exists s; auto | reflexivity]. }
    split; [constructor; assumption |]. simpl. rewrite Hd, IH2. reflexivity.
Qed.

Lemma forallb_rev {A} (f : A -> bool) (l : list A) :
  forallb f (rev l) = forallb f l.
Proof.
  induction l as [| x l IH]; simpl; [reflexivity |].
  rewrite forallb_app, IH. simpl. rewrite andb_true_r. apply andb_comm.
Qed.

(** C8. Whatever value [set], [lpush] or [rpush] is given, none of the
    values of a command that reaches the store is a dictionary.  For a
    dictionary given alone, every write issued carries its JSON text
    ([set]: the UTF-8 bytes of that text); for a list, every push issued
    carries the list with each dictionary element replaced by its JSON
    text ([lpush]: in reversed order).  When [json.dumps] fails nothing
    is issued. *)
Theorem dicts_are_sent_serialized (name : pystr) (value : pyval)
    (d : list (pykey * pyval)) (l : list pyval) (expire : option Z) (st : St) :
  (forallb native_dict_free
     (issued (fun r' => set float_repr py_repr r' name value expire) r st) = true
   /\ forallb native_dict_free
     (issued (fun r' => lpush float_repr py_repr r' name value expire) r st) = true
   /\ forallb native_dict_free
     (issued (fun r' => rpush float_repr py_repr r' name value expire) r st) = true)
  /\ Forall (fun c => exists s b,
               json_dumps float_repr (VDict d) = Return s /\ utf8_encode s = Some b
               /\ (c = SET name (VBytes b) \/ exists t, c = SETEX name t (VBytes b)))
       (issued (fun r' => set float_repr py_repr r' name (VDict d) expire) r st)
  /\ Forall (fun c => (exists s, json_dumps float_repr (VDict d) = Return s /\ c = LPUSH name [VStr s])
                      \/ exists t, c = EXPIRE name t)
       (issued (fun r' => lpush float_repr py_repr r' name (VDict d) expire) r st)
  /\ Forall (fun c => (exists s, json_dumps float_repr (VDict d) = Return s /\ c = RPUSH name [VStr s])
                      \/ exists t, c = EXPIRE name t)
       (issued (fun r' => rpush float_repr py_repr r' name (VDict d) expire) r st)
  /\ Forall (fun c => (exists vals, dump_dicts float_repr l = Return vals
                                    /\ Forall2 (sent_for float_repr) l vals
                                    /\ c = LPUSH name (rev vals))
                      \/ exists t, c = EXPIRE name t)
       (issued (fun r' => lpush float_repr py_repr r' name (VList l) expire) r st)
  /\ Forall (fun c => (exists vals, dump_dicts float_repr l = Return vals
                                    /\ Forall2 (sent_for float_repr) l vals
                                    /\ c = RPUSH name vals)
                      \/ exists t, c = EXPIRE name t)
       (issued (fun r' => rpush float_repr py_repr r' name (VList l) expire) r st).
Proof.
  split; [split; [| split] |].
  - run_tool. destruct (encode_value float_repr py_repr value) as [enc |] eqn:He; simpl;
      [| reflexivity].
    destruct (encode_value_bytes _ _ He) as [b ->].
    repeat next_case; reflexivity.
  - run_tool. destruct value; simpl;
      try (repeat next_case; reflexivity).
    + next_case; try reflexivity.
      destruct (dump_dicts float_repr l0) as [vals | []] eqn:Hd; simpl; try reflexivity.
      apply dump_dicts_sent in Hd as [_ Hd].
      repeat next_case; rewrite ?forallb_rev, ?Hd; reflexivity.
    + next_case; try reflexivity.
      destruct (json_dumps float_repr (VDict d0)) as [? | []]; simpl; try reflexivity.
      repeat next_case; reflexivity.
  - run_tool. destruct value; simpl;
      try (repeat next_case; reflexivity).
    + next_case; try reflexivity.
      destruct (dump_dicts float_repr l0) as [vals | []] eqn:Hd; simpl; try reflexivity.
      apply dump_dicts_sent in Hd as [_ Hd].
      repeat next_case; rewrite ?Hd; reflexivity.
    + next_case; try reflexivity.
      destruct (json_dumps float_repr (VDict d0)) as [? | []]; simpl; try reflexivity.
      repeat next_case; reflexivity.
  - split; [| split; [| split; [| split]]].
    + run_tool.
      destruct (encode_value float_repr py_repr (VDict d)) as [enc |] eqn:He; simpl;
        [| constructor].
      destruct (encode_value_dict _ _ He) as (js & b & Hs & Hb & ->).
      repeat next_case; each_issued.
    + run_tool. next_case; try constructor.
      destruct (json_dumps float_repr (VDict d)) as [js | []] eqn:Hs; simpl;
        try constructor.
      repeat next_case; each_issued.
    + run_tool. next_case; try constructor.
      destruct (json_dumps float_repr (VDict d)) as [js | []] eqn:Hs; simpl;
        try constructor.
      repeat next_case; each_issued.
    + run_tool. next_case; try constructor.
      destruct (dump_dicts float_repr l) as [vals | []] eqn:Hd; simpl; try constructor.
      pose proof (dump_dicts_sent _ _ Hd) as [Hs _].
      repeat next_case; each_issued.
    + run_tool. next_case; try constructor.
      destruct (dump_dicts float_repr l) as [vals | []] eqn:Hd; simpl; try constructor.
      pose proof (dump_dicts_sent _ _ Hd) as [Hs _].
      repeat next_case; each_issued.
Qed.

(** *** Which exceptions reach the caller *)

(** The conversions raise no [RedisError]. *)
Lemma json_dumps_not_redis (v : pyval) (e : exn) :
  json_dumps float_repr v = Raise e -> is_redis_error e = false.
Proof.
  unfold json_dumps. destruct (json_encode float_repr v); intros [= <-]. reflexivity.
Qed.

Lemma encode_value_not_redis (v : pyval) (e : exn) :
  encode_value float_repr py_repr v = Raise e -> is_redis_error e = false.
Proof.
  unfold encode_value, str_encode.
  destruct v; try (destruct (utf8_encode _); intros [= <-]; reflexivity);
    try discriminate.
  destruct (json_dumps float_repr (VDict d)) as [s | e'] eqn:Hs.
  - destruct (utf8_encode s); intros [= <-]. reflexivity.
  - intros [= <-]. exact (json_dumps_not_redis _ _ Hs).
Qed.

Lemma dump_dicts_not_redis (l : list pyval) (e : exn) :
  dump_dicts float_repr l = Raise e -> is_redis_error e = false.
Proof.
  induction l as [| v l IH]; simpl; [discriminate |].
  destruct (dump_if_dict float_repr v) as [x | e'] eqn:Hx.
  - destruct (dump_dicts float_repr l) as [xs | e'']; [discriminate |].
    intros [= <-]. apply IH. reflexivity.
  - intros [= <-]. destruct v; try discriminate Hx. simpl in Hx.
    destruct (json_dumps float_repr (VDict d)) as [s | e''] eqn:Hs; [discriminate |].
    injection Hx as <-. exact (json_dumps_not_redis _ _ Hs).
Qed.

(** Case on the result of a pure conversion of the tool, keeping its
    equation. *)
Ltac codec_case :=
  match goal with
  | |- context [encode_value float_repr py_repr ?v] =>
      let E := fresh "E" in
      destruct (encode_value float_repr py_repr v) as [? | []] eqn:E; simpl;
      try (apply encode_value_not_redis in E; discriminate E)
  | |- context [dump_dicts float_repr ?l] =>
      let E := fresh "E" in
      destruct (dump_dicts float_repr l) as [? | []] eqn:E; simpl;
      try (apply dump_dicts_not_redis in E; discriminate E)
  | |- context [json_dumps float_repr ?v] =>
      let E := fresh "E" in
      destruct (json_dumps float_repr v) as [? | []] eqn:E; simpl;
      try (apply json_dumps_not_redis in E; discriminate E)
  | |- context [bytes_decode ?b] =>
      unfold bytes_decode; destruct (utf8_decode b); simpl
  | |- context [truthy ?v] => destruct (truthy v); simpl
  end.

Lemma no_redis_error_escapes (q : request) (st : St) :
  redis_error_escapes (fst (call float_repr py_repr r q st)) = false.
Proof.
  destruct q; unfold call; run_tool;
    try (destruct value; simpl);
    repeat first [next_case | codec_case | value_case]; reflexivity.
Qed.

(** Use an assumption on the conversion of the value. *)
Ltac use_converts H :=
  simpl in H;
  repeat match type of H with
  | context [match ?x with _ => _ end] =>
      let E := fresh "E" in destruct x eqn:E; try discriminate H; simpl
  end.

(** An exception of the connection provider: a [RedisError] becomes the
    error text, any other reaches the caller. *)
Lemma connection_error (q : request) (st st' : St) (e : exn) :
  get_connection r st = (Raise e, st') ->
  converted_first float_repr py_repr q = true ->
  call float_repr py_repr r q st
  = (match e with
     | RedisError msg => Return (VStr (error_text q msg))
     | _ => Raise e
     end, st').
Proof.
  intros Hc Hv. destruct q; use_converts Hv; unfold call; run_tool;
    destruct e; reflexivity.
Qed.

(** An exception of the first command: likewise. *)
Lemma command_error (q : request) (c : command) (st st1 st2 : St) (e : exn) :
  first_command float_repr py_repr q = Return c ->
  get_connection r st = (Return tt, st1) ->
  execute r c st1 = (Raise e, st2) ->
  call float_repr py_repr r q st
  = (match e with
     | RedisError msg => Return (VStr (error_text q msg))
     | _ => Raise e
     end, st2).
Proof.
  intros Hf Hc Hx. unfold first_command, push_values, push_command in Hf.
  destruct q; try (injection Hf as <-); unfold call;
    first [ match type of Hf with context [encode_value] => idtac end
          | try (destruct value; cbn beta iota in Hf) ];
    repeat match type of Hf with
    | context [encode_value float_repr py_repr ?v] =>
        destruct (encode_value float_repr py_repr v) eqn:?; try discriminate Hf
    | context [dump_dicts float_repr ?l] =>
        destruct (dump_dicts float_repr l) eqn:?; try discriminate Hf
    | context [json_dumps float_repr ?v] =>
        destruct (json_dumps float_repr v) eqn:?; try discriminate Hf
    | context [if_int ?x] => destruct (if_int x) eqn:?
    end;
    try (injection Hf as <-);
    run_tool; destruct e; reflexivity.
Qed.

(** An exception of the conversion reaches the caller. *)
Lemma conversion_error (q : request) (st st1 : St) (e : exn) :
  first_command float_repr py_repr q = Raise e ->
  get_connection r st = (Return tt, st1) ->
  fst (call float_repr py_repr r q st) = Raise e.
Proof.
  intros Hf Hc. unfold first_command, push_values in Hf.
  destruct q; try discriminate Hf; unfold call;
    first [ match type of Hf with context [encode_value] => idtac end
          | try (destruct value; cbn beta iota in Hf; try discriminate Hf) ];
    repeat match type of Hf with
    | context [encode_value float_repr py_repr ?v] =>
        destruct (encode_value float_repr py_repr v) eqn:?; try discriminate Hf
    | context [dump_dicts float_repr ?l] =>
        destruct (dump_dicts float_repr l) eqn:?; try discriminate Hf
    | context [json_dumps float_repr ?v] =>
        destruct (json_dumps float_repr v) eqn:?; try discriminate Hf
    end;
    injection Hf as <-;
    match goal with
    | E : encode_value _ _ _ = Raise _ |- _ => pose proof (encode_value_not_redis _ _ E)
    | E : dump_dicts _ _ = Raise _ |- _ => pose proof (dump_dicts_not_redis _ _ E)
    | E : json_dumps _ _ = Raise _ |- _ => pose proof (json_dumps_not_redis _ _ E)
    end;
    run_tool;
    match goal with
    | |- context [Raise ?x] => is_var x; destruct x; try discriminate; reflexivity
    end.
Qed.

(** Where an exception that reaches the caller comes from. *)
Lemma escaping_exception_origin (q : request) (st : St) (e : exn) :
  fst (call float_repr py_repr r q st) = Raise e ->
  first_command float_repr py_repr q = Raise e
  \/ raised_by_client r e
  \/ raised_by_reply_dump float_repr q e.
Proof.
  unfold raised_by_client, raised_by_reply_dump, first_command, push_values.
  destruct q; unfold call; run_tool;
    try (destruct value; simpl);
    repeat first [next_case | codec_case | value_case];
    intros [= <-];
    first
      [ left; reflexivity
      | right; left; left;
        match goal with
        | H : get_connection r ?s = (Raise _, _) |- _ =>
            exists s; rewrite H; reflexivity
        end
      | right; left; right;
        match goal with
        | H : execute r ?c ?s = (Raise _, _) |- _ =>
            exists c, s; rewrite H; reflexivity
        end
      | right; right;
        match goal with
        | H : json_dumps float_repr ?v = Raise _ |- _ => exists v; exact H
        end ].
Qed.


(** *** Float decrement and the push of no values, for any client *)

Lemma decrbyfloat_is_negated_incrbyfloat (key : pystr) (amount : float) (st : St) :
  issued (fun r' => decrbyfloat float_repr py_repr r' key amount) r st
  = issued (fun r' => incrbyfloat float_repr py_repr r' key (- amount)%float) r st
  /\ snd (decrbyfloat float_repr py_repr r key amount st)
     = snd (incrbyfloat float_repr py_repr r key (- amount)%float st)
  /\ Forall (fun c => c = INCRBYFLOAT key (- amount)%float)
       (issued (fun r' => decrbyfloat float_repr py_repr r' key amount) r st).
Proof.
  repeat split; run_tool; repeat next_case; try reflexivity; each_issued.
Qed.

Lemma push_of_no_values (name : pystr) (expire : option Z) (st st1 st2 : St) (msg : pystr) :
  get_connection r st = (Return tt, st1) ->
  (execute r (LPUSH name []) st1 = (Raise (RedisError msg), st2) ->
   lpush float_repr py_repr r name (VList []) expire st
   = (Return (VStr (push_error name msg)), st2))
  /\ (execute r (RPUSH name []) st1 = (Raise (RedisError msg), st2) ->
      rpush float_repr py_repr r name (VList []) expire st
      = (Return (VStr (push_error name msg)), st2))
  /\ (exists rest,
        issued (fun r' => lpush float_repr py_repr r' name (VList []) expire) r st
        = LPUSH name [] :: rest)
  /\ (exists rest,
        issued (fun r' => rpush float_repr py_repr r' name (VList []) expire) r st
        = RPUSH name [] :: rest).
Proof.
  intros Hc. repeat split.
  - intros Hx. run_tool. reflexivity.
  - intros Hx. run_tool. reflexivity.
  - run_tool. repeat next_case; eauto.
  - run_tool. repeat next_case; eauto.
Qed.

End Laws.

(** ** The encoder writes text that UTF-8 carries *)

Lemma small_app (s t : pystr) : small s -> small t -> small (s ++ t).
Proof. apply Forall_app_2. Qed.

Lemma lit_cons (a : ascii) (s : string) : lit (String a s) = N_of_ascii a :: lit s.
Proof. reflexivity. Qed.

Lemma small_lit (s : string) : small (lit s).
Proof.
  unfold small. induction s as [| a s IH]; [constructor |].
  rewrite lit_cons. constructor; [apply N_ascii_bounded | exact IH].
Qed.

Lemma small_scalar (s : pystr) : small s -> forallb scalar s = true.
Proof.
  induction 1 as [| c s Hc _ IH]; [reflexivity |].
  simpl. rewrite IH, andb_true_r. unfold scalar. settle_cmp. reflexivity.
Qed.

Lemma small_hex_digit (n : N) : n < 16 -> hex_digit n < 256.
Proof. unfold hex_digit. intros H. destruct (n <? 10); lia. Qed.

Lemma small_u_escape (n : N) : small (u_escape n).
Proof.
  unfold u_escape, small.
  repeat constructor; try lia; apply small_hex_digit; apply N.mod_lt; lia.
Qed.

Lemma small_json_char (c : N) : small (json_char c).
Proof.
  unfold json_char.
  repeat match goal with
  | |- small (if ?b then _ else _) => destruct b eqn:?
  end; try (repeat constructor; lia).
  - apply andb_prop in Heqb6 as [_ H]. apply N.leb_le in H.
    repeat constructor. lia.
  - apply small_u_escape.
  - apply small_app; apply small_u_escape.
Qed.

Lemma small_json_string (s : pystr) : small (json_string s).
Proof.
  unfold json_string. apply small_app; [repeat constructor; lia |].
  apply small_app; [| repeat constructor; lia].
  induction s as [| c s IH]; simpl; [constructor |].
  apply small_app; [apply small_json_char | exact IH].
Qed.

Lemma small_join_comma (items : list pystr) : Forall small items -> small (join_comma items).
Proof.
  induction 1 as [| x xs Hx Hxs IH]; simpl; [constructor |].
  destruct xs; [exact Hx |].
  apply small_app; [exact Hx |]. apply small_app; [apply small_lit | exact IH].
Qed.

(** Induction on a value with the elements of a list and the values of a
    dictionary at hand. *)
Lemma pyval_induction (P : pyval -> Prop) :
  P VNone -> (forall b, P (VBool b)) -> (forall z, P (VInt z)) ->
  (forall f, P (VFloat f)) -> (forall s, P (VStr s)) -> (forall b, P (VBytes b)) ->
  (forall l, (forall x, In x l -> P x) -> P (VList l)) ->
  (forall d, (forall k x, In (k, x) d -> P x) -> P (VDict d)) ->
  forall v, P v.
Proof.
  intros HN HB HI HF HS HY HL HD. fix IH 1.
  intros [| b | z | f | s | b | l | d];
    [exact HN | apply HB | apply HI | apply HF | apply HS | apply HY | |].
  - apply HL. revert l. fix IHl 1. intros [| x l] y; simpl; [intros [] |].
    intros [<- | Hy]; [apply IH | exact (IHl l y Hy)].
  - apply HD. revert d. fix IHd 1. intros [| [k x] d] k' y; simpl; [intros [] |].
    intros [[= <- <-] | Hy]; [apply IH | exact (IHd d k' y Hy)].
Qed.

Section JsonText.

Variable float_repr : float -> string.

Lemma small_encode_items {A} (enc : A -> option pystr) (l : list A) (xs : list pystr) :
  (forall x, In x l -> forall s, enc x = Some s -> small s) ->
  encode_items enc l = Some xs -> Forall small xs.
Proof.
  revert xs. induction l as [| x l IH]; simpl; intros xs Hin H.
  - injection H as <-. constructor.
  - destruct (enc x) as [a |] eqn:Ha; [| discriminate].
    destruct (encode_items enc l) as [ys |]; [| discriminate].
    injection H as <-. constructor; [apply (Hin x); auto |].
    apply IH; [intros y Hy; apply Hin; auto | reflexivity].
Qed.

Lemma small_brackets (open close : string) (xs : list pystr) :
  Forall small xs -> small (lit open ++ join_comma xs ++ lit close).
Proof.
  intros H. apply small_app; [apply small_lit |].
  apply small_app; [apply small_join_comma; exact H | apply small_lit].
Qed.

Lemma small_json_encode (v : pyval) :
  forall s, json_encode float_repr v = Some s -> small s.
Proof.
  induction v as [| b | z | f | s' | b | l IH | d IH] using pyval_induction;
    intros s H.
  - injection H as <-. apply small_lit.
  - destruct b; injection H as <-; apply small_lit.
  - injection H as <-. apply small_lit.
  - injection H as <-. unfold json_float.
    repeat match goal with |- small (if ?c then _ else _) => destruct c end;
      apply small_lit.
  - injection H as <-. apply small_json_string.
  - discriminate.
  - cbn [json_encode] in H.
    destruct (encode_items (json_encode float_repr) l) as [xs |] eqn:Hit; [| discriminate].
    injection H as <-. apply small_brackets.
    apply (small_encode_items _ _ _ IH Hit).
  - cbn [json_encode] in H.
    match type of H with match ?it with _ => _ end = _ =>
      destruct it as [xs |] eqn:Hit; [| discriminate] end.
    injection H as <-. apply small_brackets.
    refine (small_encode_items _ _ _ _ Hit).
    intros [k x] Hin s Hs. cbn [fst snd] in Hs.
    destruct (json_key float_repr k) as [a |]; [| discriminate].
    destruct (json_encode float_repr x) as [b |] eqn:Hb; [| discriminate].
    injection Hs as <-.
    apply (small_app (json_string a) (lit ": " ++ b)); [apply small_json_string |].
    apply small_app; [apply small_lit | exact (IH k x Hin b Hb)].
Qed.

(** Text of small code points encodes, and decodes back to itself. *)
Lemma small_roundtrip (s : pystr) :
  small s -> exists b, utf8_encode s = Some b /\ utf8_decode b = Some s.
Proof.
  intros H. destruct (utf8_encode_total s (small_scalar s H)) as [b Hb].
  exists b. split; [exact Hb | exact (utf8_roundtrip s b Hb)].
Qed.

Lemma json_dumps_roundtrip (v : pyval) (s : pystr) :
  json_dumps float_repr v = Return s ->
  exists b, utf8_encode s = Some b /\ utf8_decode b = Some s.
Proof.
  unfold json_dumps. destruct (json_encode float_repr v) as [s' |] eqn:H; [| discriminate].
  intros [= <-]. apply small_roundtrip. exact (small_json_encode v s' H).
Qed.

End JsonText.

(** ** The tools on the reference store *)

Create HintDb store.
#[local] Hint Unfold store store_execute push pop incrby read write : store.

(** Run a tool on the reference store, down to the keyspace. *)
Ltac run_store := autounfold with tool store in *; simpl in *; run_tool.

Lemma utf8_decode_nil (b : string) : utf8_decode b = Some [] -> b = EmptyString.
Proof.
  destruct b as [| a0 r0]; [reflexivity |].
  unfold utf8_decode; fold utf8_decode. cbv zeta.
  repeat match goal with
  | |- context [if ?c then _ else _] => destruct c
  | |- context [match ?s with EmptyString => _ | String _ _ => _ end] => destruct s
  | |- context [utf8_decode ?s] => destruct (utf8_decode s)
  end; simpl; discriminate.
Qed.

Section StoreLaws.

Variable float_repr : float -> string.
Variable py_repr : pyval -> pystr.
Variable decode_responses : bool.
Variable float_incr : option string -> string -> string + string.
Variable reply_float : string -> float.
Variable time_in_range : Z -> bool.
Variable invalid_expire : string -> string.

Local Abbreviation redis :=
  (store float_repr decode_responses float_incr reply_float time_in_range invalid_expire).

Lemma encode_key (key : pystr) (k : string) :
  utf8_encode key = Some k -> str_encode key = Return k.
Proof. intros H. unfold str_encode. rewrite H. reflexivity. Qed.

(** What [get] gives on the store, case by case on what the key holds. *)
Lemma get_on_store (key : pystr) (k : string) (db : gmap string entry) :
  utf8_encode key = Some k ->
  get redis key db =
    (match db !! k with
     | None => Return (VStr (missing_key_message key))
     | Some (Entry (PString b) _) =>
         match utf8_decode b with
         | Some s => Return (VStr s)
         | None => if decode_responses then Raise UnicodeDecodeError else Return (VBytes b)
         end
     | Some (Entry (PList _) _) =>
         Return (VStr (get_error key
           (lit "WRONGTYPE Operation against a key holding the wrong kind of value")))
     end, db).
Proof.
  intros Hk. run_store. rewrite (encode_key _ _ Hk). simpl.
  destruct (db !! k) as [[[b | l] t] |]; simpl; try reflexivity.
  unfold reply_bulk, bytes_decode.
  destruct decode_responses; destruct (utf8_decode b); reflexivity.
Qed.

(** C4, as amended. On the store, [get] returns the "does not exist"
    text when the key is absent, and returns a stored empty value as the
    empty text.  It returns the empty text only for a stored empty value,
    so absence never shows as empty text; it returns the "does not exist"
    text for a key that is present exactly when the stored bytes decode
    to that very text. *)
Theorem get_missing_key_text (key : pystr) (k : string) (db : gmap string entry) :
  utf8_encode key = Some k ->
  (db !! k = None ->
     get redis key db = (Return (VStr (missing_key_message key)), db))
  /\ (forall t, db !! k = Some (Entry (PString EmptyString) t) ->
        get redis key db = (Return (VStr []), db))
  /\ (fst (get redis key db) = Return (VStr []) <->
        exists t, db !! k = Some (Entry (PString EmptyString) t))
  /\ (fst (get redis key db) = Return (VStr (missing_key_message key)) <->
        db !! k = None
        \/ exists b t, db !! k = Some (Entry (PString b) t)
                       /\ utf8_decode b = Some (missing_key_message key)).
Proof.
  intros Hk. rewrite (get_on_store _ _ _ Hk). simpl.
  assert (Hm : missing_key_message key <> []) by (vm_compute; discriminate).
  assert (He : forall m, get_error key m <> missing_key_message key)
    by (intros m; vm_compute; discriminate).
  assert (He' : forall m, get_error key m <> []) by (intros m; vm_compute; discriminate).
  split; [intros ->; reflexivity |].
  split; [intros t ->; reflexivity |].
  destruct (db !! k) as [[[b | l] t] |]; simpl.
  - destruct (utf8_decode b) as [s |] eqn:Hb.
    + split; split.
      * intros [= ->]. apply utf8_decode_nil in Hb as ->. eauto.
      * intros [t' [= ->]]. vm_compute in Hb. congruence.
      * intros [= ->]. right. eauto.
      * intros [[=] | (b' & t' & [= <-] & Hb')]. congruence.
    + split; split.
      * destruct decode_responses; discriminate.
      * intros [t' [= ->]]. vm_compute in Hb. discriminate.
      * destruct decode_responses; discriminate.
      * intros [[=] | (b' & t' & [= <-] & Hb')]. congruence.
  - split; split.
    + intros [= H]; try destruct (He' _ H).
    + intros [t' [=]].
    + intros [= H]; try destruct (He _ H).
    + intros [[=] | (b' & t' & [=] & _)].
  - split; split.
    + intros [= H]; try destruct (Hm H).
    + intros [t' [=]].
    + auto.
    + reflexivity.
Qed.

(** What [set] does on the store once the value is encoded. *)
Lemma set_on_store (key : pystr) (k b : string) (value : pyval)
    (expiration : option Z) (db : gmap string entry) :
  utf8_encode key = Some k ->
  encode_value float_repr py_repr value = Return (VBytes b) ->
  accepted time_in_range expiration ->
  snd (set float_repr py_repr redis key value expiration db)
  = <[k := Entry (PString b) (if_int expiration)]> db.
Proof.
  intros Hk He Ht. unfold accepted in Ht. run_store. rewrite (encode_key _ _ Hk). simpl.
  destruct (if_int expiration) as [t |]; simpl.
  - destruct Ht as (Hpos & Hi & Hr). rewrite Hi, Hr. simpl.
    rewrite (proj2 (Z.leb_gt t 0)) by lia. reflexivity.
  - reflexivity.
Qed.

Lemma get_after_set_bytes (key : pystr) (k b : string) (value : pyval)
    (expiration : option Z) (db : gmap string entry) :
  utf8_encode key = Some k ->
  encode_value float_repr py_repr value = Return (VBytes b) ->
  accepted time_in_range expiration ->
  fst (get redis key (snd (set float_repr py_repr redis key value expiration db)))
  = match utf8_decode b with
    | Some s => Return (VStr s)
    | None => if decode_responses then Raise UnicodeDecodeError else Return (VBytes b)
    end.
Proof.
  intros Hk He Ht. rewrite (set_on_store _ _ _ _ _ _ Hk He Ht).
  rewrite (get_on_store _ _ _ Hk). rewrite lookup_insert_eq. reflexivity.
Qed.

Lemma encode_value_text (value : pyval) (s : pystr) (b : string) :
  (forall d, value <> VDict d) -> (forall y, value <> VBytes y) ->
  py_str float_repr py_repr value = s -> utf8_encode s = Some b ->
  encode_value float_repr py_repr value = Return (VBytes b).
Proof.
  intros Hd Hy <- Hb. unfold encode_value, str_encode.
  destruct value; try (rewrite Hb; reflexivity).
  - destruct (Hy b0 eq_refl).
  - destruct (Hd d eq_refl).
Qed.

(** C3, as amended. On the store, under a key that UTF-8 carries and an
    expiration the store accepts, [get] after [set] returns: for a text
    of encodable code points, that text; for an int (in the 64-bit range
    of the data model), its decimal text; for a float, its [repr] text;
    for bytes that decode, the decoded text; for a dictionary, the JSON
    text that [json.dumps] gives for it, as a text and not as a
    dictionary.  For bytes that do not decode it returns the same bytes
    on a connection that hands replies over as bytes, and raises
    [UnicodeDecodeError] on a connection that decodes them. *)
Theorem get_after_set (key : pystr) (k : string) (expiration : option Z)
    (db : gmap string entry) :
  utf8_encode key = Some k ->
  accepted time_in_range expiration ->
  (forall s, forallb scalar s = true ->
     fst (get redis key (snd (set float_repr py_repr redis key (VStr s) expiration db)))
     = Return (VStr s))
  /\ (forall z, (- 2 ^ 63 <= z < 2 ^ 63)%Z ->
     fst (get redis key (snd (set float_repr py_repr redis key (VInt z) expiration db)))
     = Return (VStr (int_repr z)))
  /\ (forall f,
     fst (get redis key (snd (set float_repr py_repr redis key (VFloat f) expiration db)))
     = Return (VStr (lit (float_repr f))))
  /\ (forall b s, utf8_decode b = Some s ->
     fst (get redis key (snd (set float_repr py_repr redis key (VBytes b) expiration db)))
     = Return (VStr s))
  /\ (forall b, utf8_decode b = None ->
     fst (get redis key (snd (set float_repr py_repr redis key (VBytes b) expiration db)))
     = if decode_responses then Raise UnicodeDecodeError else Return (VBytes b))
  /\ (forall d s, json_dumps float_repr (VDict d) = Return s ->
     fst (get redis key (snd (set float_repr py_repr redis key (VDict d) expiration db)))
     = Return (VStr s)).
Proof.
  intros Hk Ht.
  assert (text : forall value s,
    (forall d, value <> VDict d) -> (forall y, value <> VBytes y) ->
    py_str float_repr py_repr value = s -> forallb scalar s = true ->
    fst (get redis key (snd (set float_repr py_repr redis key value expiration db)))
    = Return (VStr s)).
  { intros value s Hd Hy Hs Hsc. destruct (utf8_encode_total s Hsc) as [b Hb].
    rewrite (get_after_set_bytes _ _ b _ _ _ Hk (encode_value_text _ _ _ Hd Hy Hs Hb) Ht).
    rewrite (utf8_roundtrip _ _ Hb). reflexivity. }
  repeat split.
  - intros s Hs. apply text; try discriminate; auto.
  - intros z _. apply text; try discriminate; auto.
    apply small_scalar, small_lit.
  - intros f. apply text; try discriminate; auto. apply small_scalar, small_lit.
  - intros b s Hb.
    rewrite (get_after_set_bytes _ _ b (VBytes b) _ _ Hk eq_refl Ht), Hb. reflexivity.
  - intros b Hb.
    rewrite (get_after_set_bytes _ _ b (VBytes b) _ _ Hk eq_refl Ht), Hb.
    reflexivity.
  - intros d s Hs. destruct (json_dumps_roundtrip _ _ _ Hs) as (b & Hb & Hb').
    assert (He : encode_value float_repr py_repr (VDict d) = Return (VBytes b)).
    { unfold encode_value, str_encode. rewrite Hs, Hb. reflexivity. }
    rewrite (get_after_set_bytes _ _ b _ _ _ Hk He Ht), Hb'. reflexivity.
Qed.

(** *** Pushing a list and reading it back *)

Lemma wire_all_app (xs ys : list pyval) (bs cs : list string) :
  wire_all float_repr xs = Return bs -> wire_all float_repr ys = Return cs ->
  wire_all float_repr (xs ++ ys) = Return (bs ++ cs).
Proof.
  revert bs. induction xs as [| x xs IH]; simpl; intros bs Hx Hy.
  - injection Hx as <-. exact Hy.
  - destruct (wire float_repr x) as [b |]; [| discriminate].
    destruct (wire_all float_repr xs) as [bs' |]; [| discriminate].
    injection Hx as <-. rewrite (IH bs' eq_refl Hy). reflexivity.
Qed.

Lemma wire_all_rev (xs : list pyval) (bs : list string) :
  wire_all float_repr xs = Return bs -> wire_all float_repr (rev xs) = Return (rev bs).
Proof.
  revert bs. induction xs as [| x xs IH]; simpl; intros bs Hx.
  - injection Hx as <-. reflexivity.
  - destruct (wire float_repr x) as [b |] eqn:Hb; [| discriminate].
    destruct (wire_all float_repr xs) as [bs' |]; [| discriminate].
    injection Hx as <-. simpl. apply wire_all_app; [apply IH; reflexivity |].
    simpl. rewrite Hb. reflexivity.
Qed.

Lemma stored_items (L : list pyval) (ts : list pystr) :
  Forall2 (stored_as_text float_repr) L ts ->
  exists vals bs,
    dump_dicts float_repr L = Return vals /\ wire_all float_repr vals = Return bs
    /\ Forall2 (fun b t => utf8_decode b = Some t) bs ts.
Proof.
  induction 1 as [| v t L ts (b & Hv & Hb) _ (vals & bs & Hd & Hw & Hbs)].
  - exists [], []. repeat split; constructor.
  - unfold stored_item in Hv.
    destruct (dump_if_dict float_repr v) as [x |] eqn:Hx; [| discriminate].
    exists (x :: vals), (b :: bs). simpl. rewrite Hx, Hd, Hv, Hw.
    repeat split. constructor; assumption.
Qed.

Lemma fold_left_push_head (bs acc : list string) :
  fold_left (fun acc v => v :: acc) bs acc = rev bs ++ acc.
Proof.
  revert acc. induction bs as [| b bs IH]; intros acc; simpl; [reflexivity |].
  rewrite IH, <- app_assoc. reflexivity.
Qed.

Lemma fold_left_push_tail (bs acc : list string) :
  fold_left (fun acc v => acc ++ [v]) bs acc = acc ++ bs.
Proof.
  revert acc. induction bs as [| b bs IH]; intros acc; simpl.
  - rewrite app_nil_r. reflexivity.
  - rewrite IH, <- app_assoc. reflexivity.
Qed.

(** A push of at least one value onto a key that is not there. *)
Lemma push_on_store (left : bool) (name : pystr) (k : string) (vals : list pyval)
    (bs : list string) (db : gmap string entry) :
  utf8_encode name = Some k -> db !! k = None ->
  wire_all float_repr vals = Return bs -> bs <> [] ->
  push float_repr left name vals db
  = (Return (VInt (Z.of_nat (length bs))),
     <[k := Entry (PList (if left then rev bs else bs)) None]> db).
Proof.
  intros Hk Hdb Hw Hne.
  destruct left; run_store; rewrite (encode_key _ _ Hk); simpl;
    (destruct bs as [| b bs]; [destruct (Hne eq_refl) |]); simpl;
    rewrite Hdb; simpl.
  - rewrite fold_left_push_head.
    rewrite length_app, length_rev. simpl.
    replace (length bs + 1)%nat with (S (length bs)) by lia. reflexivity.
  - rewrite fold_left_push_tail. reflexivity.
Qed.

(** A push of no value: the store refuses it. *)
Lemma push_nothing_on_store (left : bool) (name : pystr) (k : string)
    (db : gmap string entry) :
  utf8_encode name = Some k ->
  push float_repr left name [] db
  = (response_error
       (if left then "wrong number of arguments for 'lpush' command"
        else "wrong number of arguments for 'rpush' command"), db).
Proof.
  intros Hk. destruct left; run_store; rewrite (encode_key _ _ Hk); reflexivity.
Qed.

Lemma range_of_whole (l : list string) : range_of l 0 (-1) = l.
Proof.
  unfold range_of. simpl.
  destruct l as [| x l]; [reflexivity |].
  set (len := Z.of_nat (length (x :: l))).
  assert (Hlen : (0 < len)%Z) by (subst len; simpl; lia).
  replace (-1 + len <? 0)%Z with false by (symmetry; apply Z.ltb_ge; lia).
  replace (-1 + len <? 0)%Z with false by (symmetry; apply Z.ltb_ge; lia).
  replace (len <=? 0)%Z with false by (symmetry; apply Z.leb_gt; lia).
  replace (len <=? -1 + len)%Z with false by (symmetry; apply Z.leb_gt; lia).
  simpl. replace (Z.to_nat (-1 + len - 0 + 1)) with (length (x :: l)) by (subst len; lia).
  apply firstn_all.
Qed.

Lemma reply_bulks_texts (bs : list string) (ts : list pystr) :
  decode_responses = true ->
  Forall2 (fun b t => utf8_decode b = Some t) bs ts ->
  reply_bulks decode_responses bs = Return (map VStr ts).
Proof.
  intros Hd. induction 1 as [| b t bs ts Hb _ IH]; simpl; [reflexivity |].
  rewrite IH. unfold reply_bulk, bytes_decode. rewrite Hd, Hb. reflexivity.
Qed.

Lemma encode_items_texts (ts : list pystr) :
  encode_items (json_encode float_repr) (map VStr ts) = Some (map json_string ts).
Proof.
  induction ts as [| t ts IH]; [reflexivity |].
  cbn [map encode_items]. rewrite IH. reflexivity.
Qed.

(** The JSON array of a list of texts. *)
Lemma json_dumps_texts (ts : list pystr) :
  json_dumps float_repr (VList (map VStr ts))
  = Return (lit "[" ++ join_comma (map json_string ts) ++ lit "]").
Proof.
  unfold json_dumps. cbn [json_encode]. rewrite encode_items_texts. reflexivity.
Qed.

Lemma encode_items_bytes (l : list pyval) (b : string) :
  In (VBytes b) l -> encode_items (json_encode float_repr) l = None.
Proof.
  induction l as [| x l IH]; simpl; [intros [] |].
  intros [-> | Hin]; [reflexivity |].
  rewrite (IH Hin). destruct (json_encode float_repr x); reflexivity.
Qed.

(** A reply with an element that does not decode, on a connection that
    decodes. *)
Lemma reply_bulks_undecodable (bs : list string) (b : string) :
  decode_responses = true -> In b bs -> utf8_decode b = None ->
  reply_bulks decode_responses bs = Raise UnicodeDecodeError.
Proof.
  intros Hd Hin Hb. induction bs as [| x bs IH]; [destruct Hin |].
  cbn [reply_bulks]. unfold reply_bulk, bytes_decode. rewrite Hd.
  destruct Hin as [-> | Hin].
  - rewrite Hb. reflexivity.
  - destruct (utf8_decode x); [| reflexivity].
    specialize (IH Hin). rewrite Hd in IH. rewrite IH. reflexivity.
Qed.

(** A reply on a connection that hands bytes over. *)
Lemma reply_bulks_bytes (bs : list string) :
  decode_responses = false ->
  reply_bulks decode_responses bs = Return (map VBytes bs).
Proof.
  intros Hd. induction bs as [| x bs IH]; [reflexivity |].
  cbn [reply_bulks map]. rewrite IH. unfold reply_bulk. rewrite Hd. reflexivity.
Qed.

(** What the ranged read over the whole list gives for a stored list. *)
Lemma lrange_whole_on_store (name : pystr) (k : string) (bs : list string)
    (db : gmap string entry) :
  utf8_encode name = Some k ->
  stored_list db k = bs ->
  (bs = [] -> db !! k = None) ->
  fst (lrange float_repr redis name 0 (-1) db)
  = match bs with
    | [] => Return (VStr (empty_list_message name))
    | _ :: _ =>
        match reply_bulks decode_responses bs with
        | Return vs =>
            match json_dumps float_repr (VList vs) with
            | Return s => Return (VStr s)
            | Raise e => Raise e
            end
        | Raise e => Raise e
        end
    end.
Proof.
  intros Hk Hl Hnil. unfold stored_list in Hl.
  unfold lrange, try_except, bind. rewrite (surjective_pairing (get_connection redis db)).
  change (get_connection redis db) with (@ret (gmap string entry) unit tt db).
  cbn [ret fst snd execute store store_execute]. unfold bind, lift, read, ret, wire.
  rewrite (encode_key _ _ Hk).
  change (int64 0 && int64 (-1)) with true. cbn [negb].
  destruct (db !! k) as [[[b | l] t'] |] eqn:Hdb.
  - subst bs. specialize (Hnil eq_refl). discriminate.
  - subst bs. rewrite range_of_whole.
    destruct l as [| x l]; [specialize (Hnil eq_refl); discriminate |].
    destruct (reply_bulks decode_responses (x :: l)) as [vs | e] eqn:Hvs; cbn.
    + destruct vs as [| v vs].
      * cbn [reply_bulks] in Hvs. destruct (reply_bulk decode_responses x); [| discriminate].
        destruct (reply_bulks decode_responses l); discriminate.
      * cbn. destruct (json_dumps float_repr (VList (v :: vs))) as [js | e] eqn:Hj; cbn;
          [reflexivity |].
        pose proof (json_dumps_not_redis float_repr _ e Hj) as Hn.
        destruct e; [discriminate Hn | reflexivity ..].
    + assert (Hn : is_redis_error e = false).
      { clear - Hvs. revert e Hvs. generalize (x :: l). intros bs.
        induction bs as [| y bs IH]; intros e; cbn [reply_bulks]; [discriminate |].
        unfold reply_bulk, bytes_decode.
        destruct decode_responses; [destruct (utf8_decode y) |];
          try (intros [= <-]; reflexivity);
          destruct (reply_bulks _ bs) as [? | e'];
          try discriminate; intros [= <-]; apply IH; reflexivity. }
      destruct e; [discriminate Hn | reflexivity ..].
  - subst bs. reflexivity.
Qed.

Lemma wire_all_nil (vals : list pyval) :
  wire_all float_repr vals = Return [] -> vals = [].
Proof.
  destruct vals as [| v vals]; [reflexivity |]. simpl.
  destruct (wire float_repr v); [| discriminate].
  destruct (wire_all float_repr vals); discriminate.
Qed.

(** The keyspace and the commands after a push of a whole list onto a
    key that is not there. *)
Lemma push_list_on_store (left : bool) (name : pystr) (k : string) (L vals : list pyval)
    (bs : list string) (db : gmap string entry) :
  utf8_encode name = Some k -> db !! k = None ->
  dump_dicts float_repr L = Return vals -> wire_all float_repr vals = Return bs ->
  stored_list
    (snd ((if left then lpush float_repr py_repr redis
           else rpush float_repr py_repr redis) name (VList L) None db)) k = bs
  /\ (bs = [] ->
      (snd ((if left then lpush float_repr py_repr redis
             else rpush float_repr py_repr redis) name (VList L) None db)) !! k = None)
  /\ issued (fun r' => (if left then lpush float_repr py_repr r'
                        else rpush float_repr py_repr r') name (VList L) None) redis db
     = [if left then LPUSH name (rev vals) else RPUSH name vals].
Proof.
  intros Hk Hdb Hd Hw.
  destruct bs as [| b bs].
  - apply wire_all_nil in Hw as ->.
    pose proof (push_nothing_on_store true name k db Hk) as Hl.
    pose proof (push_nothing_on_store false name k db Hk) as Hr.
    cbv beta iota in Hl, Hr.
    destruct left; unfold issued, lpush, rpush, try_except, bind, lift, logged;
      simpl; rewrite Hd; simpl; rewrite ?Hl, ?Hr; simpl;
      unfold stored_list; rewrite Hdb; auto.
  - assert (Hne : b :: bs <> []) by discriminate.
    assert (Hne' : rev (b :: bs) <> []).
    { intros H. apply (f_equal (@length _)) in H. rewrite length_rev in H. discriminate. }
    pose proof (push_on_store true name k (rev vals) (rev (b :: bs)) db Hk Hdb
                  (wire_all_rev _ _ Hw) Hne') as Hl.
    pose proof (push_on_store false name k vals (b :: bs) db Hk Hdb Hw Hne) as Hr.
    cbv beta iota in Hl, Hr. rewrite rev_involutive in Hl.
    destruct left; unfold issued, lpush, rpush, try_except, bind, lift, logged, expire_if;
      simpl; rewrite Hd; simpl; rewrite ?Hl, ?Hr; simpl;
      unfold stored_list; rewrite lookup_insert_eq; repeat split; discriminate.
Qed.

(** The elements of a list with the bytes each is stored as. *)
Lemma stored_forms (L : list pyval) (bs : list string) :
  Forall2 (fun v b => stored_item float_repr v = Return b) L bs ->
  exists vals, dump_dicts float_repr L = Return vals /\ wire_all float_repr vals = Return bs.
Proof.
  induction 1 as [| v b L bs Hv _ (vals & Hd & Hw)].
  - exists []. split; reflexivity.
  - unfold stored_item in Hv.
    destruct (dump_if_dict float_repr v) as [x |] eqn:Hx; [| discriminate].
    exists (x :: vals). simpl. rewrite Hx, Hd, Hv, Hw. split; reflexivity.
Qed.

(** C2, as amended. On the store, when a list [L] whose elements are
    stored as the bytes [bs] is pushed onto a key that is not there, by
    [lpush] or by [rpush], the stored list is [bs]: the elements of [L]
    in the caller's order.  [lpush] issues one push of the serialized
    elements in reversed order, [rpush] one push of them in the given
    order.  [lrange(name, 0, -1)] then returns, on a connection that
    decodes replies and when the stored elements are the UTF-8 of the
    texts [ts], the JSON array of [ts] in that order (for an empty [L],
    the store takes nothing and the ranged read gives its "empty" text).
    It raises [UnicodeDecodeError] on such a connection when an element
    does not decode, and [TypeError] on a connection that hands replies
    over as bytes. *)
Theorem push_keeps_input_order (name : pystr) (k : string) (L : list pyval)
    (bs : list string) (db : gmap string entry) :
  utf8_encode name = Some k ->
  db !! k = None ->
  Forall2 (fun v b => stored_item float_repr v = Return b) L bs ->
  (exists vals,
     dump_dicts float_repr L = Return vals
     /\ issued (fun r' => lpush float_repr py_repr r' name (VList L) None) redis db
        = [LPUSH name (rev vals)]
     /\ issued (fun r' => rpush float_repr py_repr r' name (VList L) None) redis db
        = [RPUSH name vals])
  /\ stored_list (snd (lpush float_repr py_repr redis name (VList L) None db)) k = bs
  /\ stored_list (snd (rpush float_repr py_repr redis name (VList L) None db)) k = bs
  /\ (forall ts,
        decode_responses = true ->
        Forall2 (fun b t => utf8_decode b = Some t) bs ts ->
        fst (lrange float_repr redis name 0 (-1)
               (snd (lpush float_repr py_repr redis name (VList L) None db)))
        = Return (VStr match ts with
                       | [] => empty_list_message name
                       | _ :: _ => lit "[" ++ join_comma (map json_string ts) ++ lit "]"
                       end)
        /\ fst (lrange float_repr redis name 0 (-1)
                  (snd (rpush float_repr py_repr redis name (VList L) None db)))
           = Return (VStr match ts with
                          | [] => empty_list_message name
                          | _ :: _ => lit "[" ++ join_comma (map json_string ts) ++ lit "]"
                          end))
  /\ (forall b,
        decode_responses = true -> In b bs -> utf8_decode b = None ->
        fst (lrange float_repr redis name 0 (-1)
               (snd (lpush float_repr py_repr redis name (VList L) None db)))
        = Raise UnicodeDecodeError
        /\ fst (lrange float_repr redis name 0 (-1)
                  (snd (rpush float_repr py_repr redis name (VList L) None db)))
           = Raise UnicodeDecodeError)
  /\ (decode_responses = false -> bs <> [] ->
        fst (lrange float_repr redis name 0 (-1)
               (snd (lpush float_repr py_repr redis name (VList L) None db)))
        = Raise TypeError
        /\ fst (lrange float_repr redis name 0 (-1)
                  (snd (rpush float_repr py_repr redis name (VList L) None db)))
           = Raise TypeError).
Proof.
  intros Hk Hdb HL.
  destruct (stored_forms L bs HL) as (vals & Hd & Hw).
  destruct (push_list_on_store true name k L vals bs db Hk Hdb Hd Hw) as (Hl1 & Hl2 & Hl3).
  destruct (push_list_on_store false name k L vals bs db Hk Hdb Hd Hw) as (Hr1 & Hr2 & Hr3).
  cbv beta iota in Hl1, Hl2, Hl3, Hr1, Hr2, Hr3.
  pose proof (lrange_whole_on_store name k bs _ Hk Hl1 Hl2) as Rl.
  pose proof (lrange_whole_on_store name k bs _ Hk Hr1 Hr2) as Rr.
  split; [exists vals; auto |].
  split; [exact Hl1 |]. split; [exact Hr1 |].
  assert (read : forall o,
            (match bs with
             | [] => Return (VStr (empty_list_message name))
             | _ :: _ =>
                 match reply_bulks decode_responses bs with
                 | Return vs =>
                     match json_dumps float_repr (VList vs) with
                     | Return s => Return (VStr s)
                     | Raise e => Raise e
                     end
                 | Raise e => Raise e
                 end
             end) = o ->
            fst (lrange float_repr redis name 0 (-1)
                   (snd (lpush float_repr py_repr redis name (VList L) None db))) = o
            /\ fst (lrange float_repr redis name 0 (-1)
                      (snd (rpush float_repr py_repr redis name (VList L) None db))) = o).
  { intros o <-. split; assumption. }
  clear Rl Rr Hl1 Hl2 Hl3 Hr1 Hr2 Hr3.
  split; [| split].
  - intros ts Hdr Hts. apply read.
    rewrite (reply_bulks_texts _ _ Hdr Hts).
    destruct Hts as [| b t bs' ts' Hb Hts]; [reflexivity |].
    change (map VStr (t :: ts')) with (VStr t :: map VStr ts').
    change (VList (VStr t :: map VStr ts')) with (VList (map VStr (t :: ts'))).
    rewrite json_dumps_texts. reflexivity.
  - intros b Hdr Hin Hb. apply read.
    rewrite (reply_bulks_undecodable bs b Hdr Hin Hb).
    destruct bs; [destruct Hin | reflexivity].
  - intros Hdr Hne. apply read.
    rewrite (reply_bulks_bytes bs Hdr).
    destruct bs as [| b bs']; [congruence |].
    unfold json_dumps. cbn [json_encode map].
    rewrite (encode_items_bytes (VBytes b :: map VBytes bs') b (or_introl eq_refl)).
    reflexivity.
Qed.

(** *** Popping *)

(** What a pop gives on the store for a key that holds a list: the
    element at the named end leaves the list, and the tool returns it
    when it is truthy, the "empty" text when it is not. *)
Lemma pop_on_store (left : bool) (name : pystr) (k : string) (l rest : list string)
    (x : string) (v : pyval) (t : option Z) (db : gmap string entry) :
  utf8_encode name = Some k ->
  db !! k = Some (Entry (PList l) t) ->
  (if left then l else rev l) = x :: rest ->
  reply_bulk decode_responses x = Return v ->
  (if left then lpop redis else rpop redis) name db
  = (Return (if truthy v then v else VStr (empty_list_message name)),
     match (if left then rest else rev rest) with
     | [] => delete k db
     | _ :: _ => <[k := Entry (PList (if left then rest else rev rest)) t]> db
     end).
Proof.
  intros Hk Hdb Hx Hv.
  destruct left; run_store; rewrite (encode_key _ _ Hk); simpl; rewrite Hdb; simpl;
    rewrite Hx; simpl.
  - destruct rest; simpl; rewrite Hv; reflexivity.
  - destruct (rev rest); simpl; rewrite Hv; reflexivity.
Qed.

(** *** Float increments *)

Lemma incrbyfloat_on_store (key : pystr) (k a b b' : string) (t : option Z)
    (amount : float) (db : gmap string entry) :
  utf8_encode key = Some k ->
  wire float_repr (VFloat amount) = Return a ->
  db !! k = Some (Entry (PString b) t) ->
  float_incr (Some b) a = inl b' ->
  store_execute float_repr decode_responses float_incr reply_float time_in_range
    invalid_expire (INCRBYFLOAT key amount) db
  = (Return (VFloat (reply_float b')), <[k := Entry (PString b') t]> db).
Proof.
  intros Hk Ha Hdb Hb. unfold store_execute, bind, lift, read, write, ret.
  change (wire float_repr (VStr key)) with (str_encode key).
  rewrite (encode_key _ _ Hk), Ha, Hdb. cbn [fst snd]. rewrite Hb. reflexivity.
Qed.


(** C10. With an empty list of values, [lpush] and [rpush] issue a push
    that carries no value.  The store refuses it, and the tool returns
    the error text built from the refusal, which is not the confirmation
    text; the keyspace is unchanged.  The same holds for any client that
    refuses the push with a [RedisError]. *)
Theorem empty_push_is_rejected (name : pystr) (k : string) (expire : option Z)
    (db : gmap string entry) :
  utf8_encode name = Some k ->
  (lpush float_repr py_repr redis name (VList []) expire db
   = (Return (VStr (push_error name
                      (lit "wrong number of arguments for 'lpush' command"))), db)
   /\ issued (fun r' => lpush float_repr py_repr r' name (VList []) expire) redis db
      = [LPUSH name []]
   /\ rpush float_repr py_repr redis name (VList []) expire db
      = (Return (VStr (push_error name
                         (lit "wrong number of arguments for 'rpush' command"))), db)
   /\ issued (fun r' => rpush float_repr py_repr r' name (VList []) expire) redis db
      = [RPUSH name []])
  /\ (forall msg,
        push_error name msg
        <> lit "Value(s) '" ++ py_str float_repr py_repr (VList [])
           ++ lit "' pushed to the left of list '" ++ name ++ lit "'."
        /\ push_error name msg
           <> lit "Value(s) '" ++ py_str float_repr py_repr (VList [])
              ++ lit "' pushed to the right of list '" ++ name ++ lit "'.")
  /\ (forall (St : Type) (r : client St) (st st1 st2 : St) (msg : pystr),
        get_connection r st = (Return tt, st1) ->
        (execute r (LPUSH name []) st1 = (Raise (RedisError msg), st2) ->
         lpush float_repr py_repr r name (VList []) expire st
         = (Return (VStr (push_error name msg)), st2))
        /\ (execute r (RPUSH name []) st1 = (Raise (RedisError msg), st2) ->
            rpush float_repr py_repr r name (VList []) expire st
            = (Return (VStr (push_error name msg)), st2))).
Proof.
  intros Hk. split; [| split].
  - pose proof (push_nothing_on_store true name k db Hk) as Hl.
    pose proof (push_nothing_on_store false name k db Hk) as Hr.
    cbv beta iota in Hl, Hr.
    repeat split; unfold issued, lpush, rpush, try_except, bind, lift, logged;
      simpl; rewrite ?Hl, ?Hr; reflexivity.
  - intros msg. unfold push_error. rewrite !lit_cons. split; intros [=].
  - intros St r st st1 st2 msg Hc.
    destruct (push_of_no_values float_repr py_repr r name expire st st1 st2 msg Hc)
      as (Hl & Hr & _).
    split; assumption.
Qed.

End StoreLaws.

(** ** The theorems at concrete inputs *)

#[local] Transparent lit.



(** C2, the claim as stated fails: a list with one element of bytes that
    are not UTF-8 is pushed and stored, and the ranged read over it
    raises, [UnicodeDecodeError] on a connection that decodes replies and
    [TypeError] on one that hands them over as bytes. *)
Lemma undecodable_element_breaks_lrange :
  stored_list
    (snd (lpush plain_float plain_repr text_store (lit "q") (VList [VBytes byte_ff])
            None ∅)) "q"
  = [byte_ff]
  /\ fst (lrange plain_float text_store (lit "q") 0 (-1)
            (snd (lpush plain_float plain_repr text_store (lit "q")
                    (VList [VBytes byte_ff]) None ∅)))
     = Raise UnicodeDecodeError
  /\ fst (lrange plain_float bytes_store (lit "q") 0 (-1)
            (snd (lpush plain_float plain_repr bytes_store (lit "q")
                    (VList [VBytes byte_ff]) None ∅)))
     = Raise TypeError.
Proof. repeat split; vm_compute; reflexivity. Qed.

Lemma push_keeps_input_order_witness :
  stored_list
    (snd (lpush plain_float plain_repr text_store (lit "q")
            (VList [VStr (lit "a"); VInt 2; VDict [(KStr (lit "x"), VBool true)]])
            None ∅)) "q"
  = ["a"%string; "2"%string; x_true_bytes]
  /\ stored_list
       (snd (rpush plain_float plain_repr text_store (lit "q")
               (VList [VStr (lit "a"); VInt 2; VDict [(KStr (lit "x"), VBool true)]])
               None ∅)) "q"
     = ["a"%string; "2"%string; x_true_bytes]
  /\ fst (lrange plain_float text_store (lit "q") 0 (-1)
            (snd (lpush plain_float plain_repr text_store (lit "q")
                    (VList [VStr (lit "a"); VInt 2; VDict [(KStr (lit "x"), VBool true)]])
                    None ∅)))
     = Return (VStr (lit "[" ++ join_comma (map json_string
                       [lit "a"; lit "2"; lit "{" ++ [34] ++ lit "x" ++ [34] ++ lit ": true}"])
                     ++ lit "]")).
Proof.
  assert (H0 : (∅ : gmap string entry) !! "q"%string = None) by (vm_compute; reflexivity).
  assert (HL : Forall2 (fun v b => stored_item plain_float v = Return b)
                 [VStr (lit "a"); VInt 2; VDict [(KStr (lit "x"), VBool true)]]
                 ["a"%string; "2"%string; x_true_bytes])
    by (repeat constructor).
  assert (Hts : Forall2 (fun b t => utf8_decode b = Some t)
                  ["a"%string; "2"%string; x_true_bytes]
                  [lit "a"; lit "2"; lit "{" ++ [34] ++ lit "x" ++ [34] ++ lit ": true}"])
    by (repeat constructor).
  destruct (push_keeps_input_order plain_float plain_repr true no_floats no_reply
              milliseconds_fit invalid_expire_text (lit "q") "q" _ _ ∅ eq_refl H0 HL)
    as (_ & Hl & Hr & Hread & _).
  split; [exact Hl |]. split; [exact Hr |].
  exact (proj1 (Hread _ eq_refl Hts)).
Defined.

(** C3, the claim as stated fails: on a connection that decodes replies,
    [get] after [set] with bytes that are not UTF-8 raises
    [UnicodeDecodeError] instead of returning the bytes. *)
Lemma undecodable_bytes_raise_on_decoding_connection :
  fst (get text_store (lit "k")
         (snd (set plain_float plain_repr text_store (lit "k") (VBytes byte_ff) None ∅)))
  = Raise UnicodeDecodeError.
Proof. vm_compute. reflexivity. Qed.

Lemma get_after_set_witness :
  fst (get bytes_store (lit "k")
         (snd (set plain_float plain_repr bytes_store (lit "k") (VStr (lit "v"))
                 (Some 60%Z) ∅)))
  = Return (VStr (lit "v"))
  /\ fst (get bytes_store (lit "k")
            (snd (set plain_float plain_repr bytes_store (lit "k") (VInt 42)
                    (Some 60%Z) ∅)))
     = Return (VStr (lit "42"))
  /\ fst (get bytes_store (lit "k")
            (snd (set plain_float plain_repr bytes_store (lit "k") (VBytes byte_ff)
                    (Some 60%Z) ∅)))
     = Return (VBytes byte_ff)
  /\ fst (get bytes_store (lit "k")
            (snd (set plain_float plain_repr bytes_store (lit "k")
                    (VDict [(KStr (lit "x"), VBool true)]) (Some 60%Z) ∅)))
     = Return (VStr (lit "{" ++ [34] ++ lit "x" ++ [34] ++ lit ": true}")).
Proof.
  assert (Ht : accepted milliseconds_fit (Some 60%Z)) by (vm_compute; auto).
  destruct (get_after_set plain_float plain_repr false no_floats no_reply
              milliseconds_fit invalid_expire_text (lit "k") "k" (Some 60%Z) ∅ eq_refl Ht)
    as (Hs & Hi & _ & _ & Hb & Hd).
  split; [| split; [| split]].
  - apply Hs. reflexivity.
  - apply Hi. split; [discriminate | reflexivity].
  - apply Hb; reflexivity.
  - apply Hd. reflexivity.
Defined.

(** C4, the claim as stated fails: the key is present, holding the bytes
    of the text "Key k does not exist", and [get] returns that text, which
    is the text it returns for an absent key. *)
Lemma present_key_reads_as_missing :
  ({["k"%string := Entry (PString "Key k does not exist") None]} : gmap string entry)
    !! "k"%string
  = Some (Entry (PString "Key k does not exist") None)
  /\ fst (get bytes_store (lit "k")
            {["k"%string := Entry (PString "Key k does not exist") None]})
     = Return (VStr (missing_key_message (lit "k")))
  /\ fst (get bytes_store (lit "k") ∅) = Return (VStr (missing_key_message (lit "k"))).
Proof. repeat split; vm_compute; reflexivity. Qed.

Lemma get_missing_key_text_witness :
  get bytes_store (lit "k") ∅ = (Return (VStr (missing_key_message (lit "k"))), ∅)
  /\ get bytes_store (lit "k") {["k"%string := Entry (PString EmptyString) None]}
     = (Return (VStr []), {["k"%string := Entry (PString EmptyString) None]}).
Proof.
  split.
  - exact (proj1 (get_missing_key_text plain_float false no_floats no_reply milliseconds_fit invalid_expire_text
                     (lit "k") "k" ∅ eq_refl) eq_refl).
  - exact (proj1 (proj2 (get_missing_key_text plain_float false no_floats no_reply milliseconds_fit invalid_expire_text
                     (lit "k") "k" {["k"%string := Entry (PString EmptyString) None]}
                     eq_refl)) None eq_refl).
Defined.

(** C5, the code at the failing input: after [rpush("q", ["", "b"])] on
    an empty store the list is ["", "b"]; [lpop("q")] then takes the
    empty text off the list and returns the "empty or does not exist"
    text instead of it, and [rpop] does the same on ["a", ""]. *)
Theorem pop_of_empty_text_reads_as_empty_list :
  stored_list
    (snd (rpush plain_float plain_repr text_store (lit "q")
            (VList [VStr []; VStr (lit "b")]) None ∅)) "q"
  = [EmptyString; "b"%string]
  /\ fst (lpop text_store (lit "q")
            (snd (rpush plain_float plain_repr text_store (lit "q")
                    (VList [VStr []; VStr (lit "b")]) None ∅)))
     = Return (VStr (empty_list_message (lit "q")))
  /\ stored_list
       (snd (lpop text_store (lit "q")
               (snd (rpush plain_float plain_repr text_store (lit "q")
                       (VList [VStr []; VStr (lit "b")]) None ∅)))) "q"
     = ["b"%string]
  /\ fst (rpop bytes_store (lit "q")
            (snd (rpush plain_float plain_repr bytes_store (lit "q")
                    (VList [VStr (lit "a"); VStr []]) None ∅)))
     = Return (VStr (empty_list_message (lit "q"))).
Proof. repeat split; vm_compute; reflexivity. Qed.

(** C6, the claim as stated fails: with the expiration -1, which is not
    greater than 0, [set] issues SETEX and not SET. *)
Lemma negative_expiration_goes_to_setex :
  issued (fun r' => set plain_float plain_repr r' (lit "k") (VStr (lit "v")) (Some (-1)%Z))
    bytes_store ∅
  = [SETEX (lit "k") (-1) (VBytes "v")].
Proof. vm_compute. reflexivity. Qed.

Lemma set_one_store_call_witness :
  issued (fun r' => set plain_float plain_repr r' (lit "k") (VStr (lit "v")) (Some 10%Z))
    bytes_store ∅
  = [SETEX (lit "k") 10 (VBytes "v")]
  /\ set plain_float plain_repr bytes_store (lit "k") (VStr (lit "v")) (Some 10%Z) ∅
     = (Return (VStr (lit "Successfully set k with expiration 10 seconds")),
        {["k"%string := Entry (PString "v") (Some 10%Z)]}).
Proof.
  destruct (proj1 (set_one_store_call plain_float plain_repr bytes_store (lit "k")
                     (VStr (lit "v")) (VBytes "v") (Some 10%Z) ∅ ∅ eq_refl eq_refl)
              10%Z eq_refl ltac:(discriminate)) as [Hi Hs].
  split; [exact Hi |].
  exact (Hs (VBool true) _ eq_refl).
Defined.

Lemma get_decodes_or_keeps_bytes_witness :
  get bytes_store (lit "k") {["k"%string := Entry (PString byte_ff) None]}
  = (Return (VBytes byte_ff), {["k"%string := Entry (PString byte_ff) None]}).
Proof.
  exact (proj1 (get_decodes_or_keeps_bytes bytes_store (lit "k") byte_ff
                  {["k"%string := Entry (PString byte_ff) None]} _ _ eq_refl eq_refl)).
Defined.



Lemma empty_push_is_rejected_witness :
  lpush plain_float plain_repr text_store (lit "q") (VList []) None ∅
  = (Return (VStr (lit "Error pushing value(s) to list 'q': wrong number of arguments for 'lpush' command")), ∅)
  /\ issued (fun r' => lpush plain_float plain_repr r' (lit "q") (VList []) None)
       text_store ∅
     = [LPUSH (lit "q") []].
Proof.
  destruct (proj1 (empty_push_is_rejected plain_float plain_repr true no_floats no_reply milliseconds_fit invalid_expire_text (lit "q") "q" None ∅ eq_refl))
    as (Hl & Hi & _).
  split; [exact Hl | exact Hi].
Defined.

(** * Further properties *)

#[local] Opaque lit.

(** ** For any client *)

Section FurtherLaws.

Variable float_repr : float -> string.
Variable py_repr : pyval -> pystr.
Context {St : Type} (r : client St).

(** Case on the result of a conversion inside a tool. *)
Ltac conversion_case :=
  match goal with
  | |- context [encode_value float_repr py_repr ?v] =>
      destruct (encode_value float_repr py_repr v) as [? | []]; simpl
  | |- context [dump_dicts float_repr ?l] =>
      destruct (dump_dicts float_repr l) as [? | []]; simpl
  | |- context [json_dumps float_repr ?v] =>
      destruct (json_dumps float_repr v) as [? | []]; simpl
  | |- context [bytes_decode ?b] => destruct (bytes_decode b) as [? | []]; simpl
  | |- context [truthy ?v] => destruct (truthy v); simpl
  end.

(** X1. Every tool issues at most one store command, a push at most two
    (the push and the EXPIRE); and when the connection provider raises,
    no command is issued at all. *)
Theorem commands_within_budget (q : request) (st : St) :
  (length (issued (fun r' => call float_repr py_repr r' q) r st) <= command_budget q)%nat
  /\ match fst (get_connection r st) with
     | Raise _ => issued (fun r' => call float_repr py_repr r' q) r st = []
     | Return _ => True
     end.
Proof.
  destruct q; unfold call; run_tool;
    try (destruct value; simpl);
    repeat first [next_case | conversion_case | value_case];
    split; simpl; auto; lia.
Qed.

(** X2. [set] converts the value before it asks for the connection: when
    the conversion raises, [set] raises the same exception, the state of
    the world is untouched and no command is issued.  Against a client
    that raises nothing but [RedisError], [set] returns exactly when the
    value converts. *)
Theorem set_converts_before_connecting (key : pystr) (value : pyval)
    (expiration : option Z) (st : St) :
  (forall e, encode_value float_repr py_repr value = Raise e ->
     set float_repr py_repr r key value expiration st = (Raise e, st)
     /\ issued (fun r' => set float_repr py_repr r' key value expiration) r st = [])
  /\ (raises_only_redis_errors r ->
      ((exists v, fst (set float_repr py_repr r key value expiration st) = Return v)
       <-> converts float_repr py_repr (Set_ key value expiration) = true)).
Proof.
  split.
  - intros e He. run_tool. split; reflexivity.
  - intros [H1 H2]. simpl. run_tool.
    destruct (encode_value float_repr py_repr value) as [enc | e]; simpl.
    + split; [reflexivity | intros _].
      pose proof (H1 st) as X1.
      destruct (get_connection r st) as [[[] | e] st1]; simpl in *.
      * match goal with
        | |- context [if_int expiration] => destruct (if_int expiration); simpl
        end;
        match goal with
        | |- context [execute r ?c st1] =>
            pose proof (H2 c st1) as X2; destruct (execute r c st1) as [[v | e] st2];
            simpl in *
        end; eauto; destruct e; try discriminate; simpl; eauto.
      * destruct e; try discriminate. simpl. eauto.
    + split; [intros [v Hv]; discriminate | discriminate].
Qed.

(** X3. What [set] sends is always bytes: bytes it is given go to the
    store unchanged, a text goes as its UTF-8 encoding. *)
Theorem set_sends_bytes (key : pystr) (value : pyval) (b : string) (s : pystr)
    (expiration : option Z) (st : St) :
  Forall (fun c => exists b', c = SET key (VBytes b')
                              \/ exists t, c = SETEX key t (VBytes b'))
    (issued (fun r' => set float_repr py_repr r' key value expiration) r st)
  /\ Forall (fun c => c = SET key (VBytes b) \/ exists t, c = SETEX key t (VBytes b))
       (issued (fun r' => set float_repr py_repr r' key (VBytes b) expiration) r st)
  /\ Forall (fun c => exists b', utf8_encode s = Some b'
                       /\ (c = SET key (VBytes b')
                           \/ exists t, c = SETEX key t (VBytes b')))
       (issued (fun r' => set float_repr py_repr r' key (VStr s) expiration) r st).
Proof.
  split; [| split].
  - run_tool. destruct (encode_value float_repr py_repr value) as [enc | e] eqn:He; simpl;
      [| constructor].
    destruct (encode_value_bytes _ _ _ _ He) as [b' ->].
    repeat next_case; each_issued.
  - run_tool. repeat next_case; each_issued.
  - run_tool. unfold encode_value, str_encode, py_str.
    destruct (utf8_encode s) as [b' |] eqn:Hs; simpl; [| constructor].
    repeat next_case; each_issued.
Qed.

Lemma truthy_text (s : string) (rest : pystr) :
  s <> EmptyString -> truthy (VStr (lit s ++ rest)) = true.
Proof. destruct s as [| a s]; [congruence |]. intros _. rewrite lit_cons. reflexivity. Qed.

(** X4. [get] never returns [None], and returns bytes only when they do
    not decode as UTF-8: a missing key gives the "does not exist" text, a
    text reply is returned as it is. *)
Theorem get_never_returns_none (key : pystr) (st : St) :
  match fst (get r key st) with
  | Return v => get_result v = true
  | Raise _ => True
  end
  /\ (forall st1 st2,
        get_connection r st = (Return tt, st1) ->
        execute r (GET key) st1 = (Return VNone, st2) ->
        get r key st = (Return (VStr (missing_key_message key)), st2))
  /\ (forall s st1 st2,
        get_connection r st = (Return tt, st1) ->
        execute r (GET key) st1 = (Return (VStr s), st2) ->
        get r key st = (Return (VStr s), st2)).
Proof.
  split; [| split].
  - run_tool. repeat first [next_case | value_case]; try reflexivity.
    unfold bytes_decode. destruct (utf8_decode b) eqn:Hb; simpl; [reflexivity |].
    rewrite Hb. reflexivity.
  - intros st1 st2 Hc Hx. run_tool. reflexivity.
  - intros s st1 st2 Hc Hx. run_tool. reflexivity.
Qed.

(** X5. A pop never returns a falsy value ([None], an empty text, empty
    bytes): a falsy reply of the store is replaced by the "empty or does
    not exist" text, a truthy reply is returned as it is. *)
Theorem pop_result_is_truthy (left : bool) (name : pystr) (st : St) :
  match fst ((if left then lpop r else rpop r) name st) with
  | Return v => truthy v = true
  | Raise _ => True
  end
  /\ (forall v st1 st2,
        get_connection r st = (Return tt, st1) ->
        execute r (if left then LPOP name else RPOP name) st1 = (Return v, st2) ->
        (if left then lpop r else rpop r) name st
        = (Return (if truthy v then v else VStr (empty_list_message name)), st2)).
Proof.
  assert (Hm : truthy (VStr (empty_list_message name)) = true)
    by (apply truthy_text; discriminate).
  assert (He : forall m, truthy (VStr (pop_error name m)) = true)
    by (intros m; apply truthy_text; discriminate).
  split.
  - destruct left; run_tool; repeat next_case; auto;
      match goal with
      | |- context [if truthy ?v then _ else _] =>
          destruct (truthy v) eqn:Hv; simpl; auto
      end.
  - intros v st1 st2 Hc Hx. destruct left; run_tool; reflexivity.
Qed.

(** X6. What [lrange] makes of the store's reply: an empty list gives the
    "empty or does not exist" text; a non-empty list of texts gives their
    JSON array; a list that holds bytes (a connection that does not
    decode replies) makes [json.dumps] raise [TypeError], which [lrange]
    does not catch. *)
Theorem lrange_by_reply (name : pystr) (start stop : Z) (l : list pyval)
    (st st1 st2 : St) :
  get_connection r st = (Return tt, st1) ->
  execute r (LRANGE name start stop) st1 = (Return (VList l), st2) ->
  (l = [] ->
   lrange float_repr r name start stop st = (Return (VStr (empty_list_message name)), st2))
  /\ (forall ts, ts <> [] -> l = map VStr ts ->
      lrange float_repr r name start stop st
      = (Return (VStr (lit "[" ++ join_comma (map json_string ts) ++ lit "]")), st2))
  /\ (forall b, In (VBytes b) l ->
      lrange float_repr r name start stop st = (Raise TypeError, st2)).
Proof.
  intros Hc Hx. split; [| split].
  - intros ->. run_tool. reflexivity.
  - intros ts Hts ->. run_tool. destruct ts as [| t ts]; [congruence |]. simpl.
    change (VList (VStr t :: map VStr ts)) with (VList (map VStr (t :: ts))).
    rewrite json_dumps_texts. reflexivity.
  - intros b Hin. run_tool. destruct l as [| x l]; [destruct Hin |]. simpl.
    unfold json_dumps. cbn [json_encode].
    rewrite (encode_items_bytes float_repr _ _ Hin). reflexivity.
Qed.

(** X7. A push with an expiration is two store commands, the push and
    then EXPIRE: EXPIRE is issued only after the push succeeded and only
    for an expiration other than 0.  When EXPIRE fails with a
    [RedisError] the tool returns the push error text although the push
    has been carried out: the state is the one after both commands. *)
Theorem push_then_expire (left : bool) (name : pystr) (value : pyval)
    (expire : option Z) (vals : list pyval) (st st1 : St) :
  get_connection r st = (Return tt, st1) ->
  push_values float_repr left value = Return vals ->
  (forall e st2,
     execute r (push_command left name vals) st1 = (Raise e, st2) ->
     issued (fun r' => (if left then lpush float_repr py_repr r'
                        else rpush float_repr py_repr r') name value expire) r st
     = [push_command left name vals])
  /\ (forall v st2,
        execute r (push_command left name vals) st1 = (Return v, st2) ->
        (if_int expire = None ->
         (if left then lpush float_repr py_repr r else rpush float_repr py_repr r)
           name value expire st
         = (Return (VStr (push_confirmation float_repr py_repr left name value)), st2)
         /\ issued (fun r' => (if left then lpush float_repr py_repr r'
                               else rpush float_repr py_repr r') name value expire) r st
            = [push_command left name vals])
        /\ (forall t, if_int expire = Some t ->
            issued (fun r' => (if left then lpush float_repr py_repr r'
                               else rpush float_repr py_repr r') name value expire) r st
            = [push_command left name vals; EXPIRE name t]
            /\ (forall m st3,
                  execute r (EXPIRE name t) st2 = (Raise (RedisError m), st3) ->
                  (if left then lpush float_repr py_repr r else rpush float_repr py_repr r)
                    name value expire st
                  = (Return (VStr (push_error name m)), st3))
            /\ (forall v' st3,
                  execute r (EXPIRE name t) st2 = (Return v', st3) ->
                  (if left then lpush float_repr py_repr r else rpush float_repr py_repr r)
                    name value expire st
                  = (Return (VStr (push_confirmation float_repr py_repr left name value)),
                     st3)))).
Proof.
  intros Hc Hv.
  unfold push_values, push_command, push_confirmation in *.
  repeat split; intros;
    destruct left; destruct value; simpl in Hv;
    repeat match type of Hv with
    | context [match ?x with _ => _ end] => destruct x eqn:?; try discriminate Hv
    end;
    try (injection Hv as <-);
    run_tool;
    repeat match goal with
    | |- context [execute r ?c ?s] => destruct (execute r c s) as [[? | []] ?]; simpl
    end;
    try reflexivity;
    match goal with e : exn |- _ => destruct e; reflexivity end.
Qed.

End FurtherLaws.

(** ** On the reference store *)

(** ASCII bytes are the UTF-8 of the text with the same characters. *)
Lemma utf8_encode_ascii (s : string) : ascii_text s -> utf8_encode (lit s) = Some s.
Proof.
  unfold ascii_text. induction s as [| a s IH]; simpl; intros H; [reflexivity |].
  inversion H as [| ? ? Ha Hs]; subst. rewrite lit_cons.
  change (utf8_encode (N_of_ascii a :: lit s))
    with (match utf8_char (N_of_ascii a), utf8_encode (lit s) with
          | Some bs, Some rest => Some (string_of_list_ascii bs ++ rest)%string
          | _, _ => None
          end).
  rewrite (IH Hs). unfold utf8_char.
  rewrite (proj2 (N.ltb_lt _ _) Ha). rewrite ascii_N_embedding. reflexivity.
Qed.

Lemma utf8_decode_ascii (s : string) : ascii_text s -> utf8_decode s = Some (lit s).
Proof. intros H. exact (utf8_roundtrip _ _ (utf8_encode_ascii s H)). Qed.

Lemma ascii_string_of_uint (d : Decimal.uint) : ascii_text (NilEmpty.string_of_uint d).
Proof.
  unfold ascii_text.
  induction d; simpl; constructor; try assumption; vm_compute; reflexivity.
Qed.

Lemma ascii_int_text (z : Z) : ascii_text (int_text z).
Proof.
  unfold int_text, NilZero.string_of_int, NilZero.string_of_uint.
  destruct (Z.to_int z) as [d | d]; destruct d;
    try (repeat constructor; vm_compute; reflexivity; fail);
    try apply (ascii_string_of_uint (_ d));
    try (constructor; [vm_compute; reflexivity | apply (ascii_string_of_uint (_ d))]).
Qed.

(** The store reads back the integers it writes. *)
Lemma parse_int_text (z : Z) :
  (- 2 ^ 63 <= z < 2 ^ 63)%Z -> parse_int (int_text z) = Some z.
Proof.
  intros [Hlo Hhi]. unfold parse_int, int_text.
  rewrite NilZero.isi.
  - rewrite DecimalZ.of_to, String.eqb_refl. simpl.
    rewrite (proj2 (Z.leb_le _ _) Hlo), (proj2 (Z.ltb_lt _ _) Hhi). reflexivity.
  - destruct z; simpl; try discriminate.
    intros [= H]. exact (DecimalPos.Unsigned.to_uint_nonnil _ H).
  - destruct z; simpl; try discriminate.
    intros [= H]. exact (DecimalPos.Unsigned.to_uint_nonnil _ H).
Qed.

Section FurtherStoreLaws.

Variable float_repr : float -> string.
Variable py_repr : pyval -> pystr.
Variable decode_responses : bool.
Variable float_incr : option string -> string -> string + string.
Variable reply_float : string -> float.
Variable time_in_range : Z -> bool.
Variable invalid_expire : string -> string.

Local Abbreviation redis :=
  (store float_repr decode_responses float_incr reply_float time_in_range invalid_expire).

(** X8. The reading tools only read: whatever the client, [get], [lrange]
    and [llen] issue no command other than GET, LRANGE and LLEN; on the
    store they leave the keyspace as it was, whatever they return or
    raise. *)
Theorem reads_change_nothing (name : pystr) (start stop : Z) :
  (forall (St : Type) (r : client St) (st : St),
     Forall (fun c => reads_only c = true) (issued (fun r' => get r' name) r st)
     /\ Forall (fun c => reads_only c = true)
          (issued (fun r' => lrange float_repr r' name start stop) r st)
     /\ Forall (fun c => reads_only c = true) (issued (fun r' => llen r' name) r st))
  /\ (forall db : gmap string entry,
        snd (get redis name db) = db
        /\ snd (lrange float_repr redis name start stop db) = db
        /\ snd (llen redis name db) = db).
Proof.
  split.
  - intros St r st. repeat split; run_tool;
      repeat first [next_case | value_case
                   | match goal with
                     | |- context [bytes_decode ?b] =>
                         destruct (bytes_decode b) as [? | []]; simpl
                     | |- context [truthy ?v] => destruct (truthy v); simpl
                     | |- context [json_dumps float_repr ?v] =>
                         destruct (json_dumps float_repr v) as [? | []]; simpl
                     end];
      each_issued.
  - intros db. repeat split; run_store;
      (destruct (str_encode name) as [k | []]; simpl; [| reflexivity ..]);
      try (destruct (int64 start && int64 stop); simpl; [| reflexivity]);
      (destruct (db !! k) as [[[b | l] t] |]; simpl; try reflexivity).
    + unfold reply_bulk, bytes_decode.
      destruct decode_responses; destruct (utf8_decode b) eqn:Hb; simpl;
        rewrite ?Hb; reflexivity.
    + destruct (reply_bulks decode_responses (range_of l start stop)) as [vs | []]; simpl;
        try reflexivity.
      destruct vs as [| v vs]; simpl; [reflexivity |].
      destruct (json_dumps float_repr (VList (v :: vs))) as [? | []]; reflexivity.
Qed.

(** *** Integer counters *)

(** INCRBY on a key that holds an integer the store wrote. *)
Lemma incrby_on_store (key : pystr) (k : string) (z delta : Z) (t : option Z)
    (db : gmap string entry) :
  utf8_encode key = Some k ->
  db !! k = Some (Entry (PString (int_text z)) t) ->
  (- 2 ^ 63 <= z < 2 ^ 63)%Z -> (- 2 ^ 63 <= z + delta < 2 ^ 63)%Z ->
  incrby float_repr key delta db
  = (Return (VInt (z + delta)), <[k := Entry (PString (int_text (z + delta))) t]> db).
Proof.
  intros Hk Hdb Hz [Hlo Hhi]. unfold incrby, bind, lift, read, write, ret, wire.
  rewrite (encode_key _ _ Hk), Hdb, (parse_int_text z Hz). cbn [fst snd].
  rewrite (proj2 (Z.ltb_ge _ _) Hlo), (proj2 (Z.leb_gt _ _) Hhi). reflexivity.
Qed.

(** INCRBY on a key that is not there, on a text that is no integer and
    on a list. *)
Lemma incrby_elsewhere (key : pystr) (k : string) (delta : Z) (db : gmap string entry) :
  utf8_encode key = Some k ->
  (db !! k = None -> (- 2 ^ 63 <= delta < 2 ^ 63)%Z ->
   incrby float_repr key delta db
   = (Return (VInt delta), <[k := Entry (PString (int_text delta)) None]> db))
  /\ (forall b t, db !! k = Some (Entry (PString b) t) -> parse_int b = None ->
      incrby float_repr key delta db
      = (response_error "value is not an integer or out of range", db))
  /\ (forall l t, db !! k = Some (Entry (PList l) t) ->
      incrby float_repr key delta db = (wrongtype, db)).
Proof.
  intros Hk. unfold incrby, bind, lift, read, write, ret, wire.
  rewrite (encode_key _ _ Hk). split; [| split].
  - intros -> [Hlo Hhi]. cbn [fst snd]. rewrite Z.add_0_l.
    rewrite (proj2 (Z.ltb_ge _ _) Hlo), (proj2 (Z.leb_gt _ _) Hhi). reflexivity.
  - intros b t -> ->. reflexivity.
  - intros l t ->. reflexivity.
Qed.

(** X9. On the store, for a key that holds the integer [z] with room
    above it: [incr] writes [z + 1] and says so, keeping the time-to-live;
    [get] then reads the decimal text of [z + 1]; [decr] after it brings
    the keyspace back to what it was. *)
Theorem incr_then_decr_restores (key : pystr) (k : string) (z : Z) (t : option Z)
    (db : gmap string entry) :
  utf8_encode key = Some k ->
  db !! k = Some (Entry (PString (int_text z)) t) ->
  (- 2 ^ 63 <= z)%Z -> (z + 1 < 2 ^ 63)%Z ->
  incr float_repr py_repr redis key db
  = (Return (VStr (lit "Key " ++ key ++ lit " incremented to " ++ int_repr (z + 1))),
     <[k := Entry (PString (int_text (z + 1))) t]> db)
  /\ fst (get redis key (snd (incr float_repr py_repr redis key db)))
     = Return (VStr (int_repr (z + 1)))
  /\ decr float_repr py_repr redis key (snd (incr float_repr py_repr redis key db))
     = (Return (VStr (lit "Key " ++ key ++ lit " decremented to " ++ int_repr z)), db).
Proof.
  intros Hk Hdb Hlo Hhi.
  pose proof (incrby_on_store key k z 1 t db Hk Hdb ltac:(lia) ltac:(lia)) as H1.
  assert (Hi : incr float_repr py_repr redis key db
               = (Return (VStr (lit "Key " ++ key ++ lit " incremented to "
                                ++ int_repr (z + 1))),
                  <[k := Entry (PString (int_text (z + 1))) t]> db)).
  { unfold incr, try_except, bind, store, ret. cbn [get_connection execute store_execute].
    rewrite H1. reflexivity. }
  rewrite Hi. cbn [snd]. split; [reflexivity | split].
  - rewrite (get_on_store float_repr decode_responses float_incr reply_float time_in_range invalid_expire _ _ _ Hk).
    rewrite lookup_insert_eq, (utf8_decode_ascii _ (ascii_int_text _)). reflexivity.
  - pose proof (incrby_on_store key k (z + 1) (-1) t
                  (<[k := Entry (PString (int_text (z + 1))) t]> db) Hk
                  (lookup_insert_eq _ _ _) ltac:(lia) ltac:(lia)) as H2.
    unfold decr, try_except, bind, store, ret. cbn [get_connection execute store_execute].
    rewrite H2. cbn [fst snd py_str]. rewrite insert_insert_eq.
    replace (z + 1 + -1)%Z with z by lia.
    rewrite (insert_id _ _ _ Hdb). reflexivity.
Qed.


(** X10. What [incr] and [decr] do on the store elsewhere: a key that is
    not there counts as 0 and is created holding "1" (or "-1") with no
    time-to-live; on a text that is no integer, on a list, and at the end
    of the 64-bit range, the tool returns its error text and the keyspace
    is as it was. *)
Theorem incr_outside_the_integers (key : pystr) (k : string) (db : gmap string entry) :
  utf8_encode key = Some k ->
  (db !! k = None ->
   incr float_repr py_repr redis key db
   = (Return (VStr (lit "Key " ++ key ++ lit " incremented to " ++ int_repr 1)),
      <[k := Entry (PString (int_text 1)) None]> db)
   /\ decr float_repr py_repr redis key db
      = (Return (VStr (lit "Key " ++ key ++ lit " decremented to " ++ int_repr (-1))),
         <[k := Entry (PString (int_text (-1))) None]> db))
  /\ (forall b t, db !! k = Some (Entry (PString b) t) -> parse_int b = None ->
      incr float_repr py_repr redis key db
      = (Return (VStr (incr_error key (lit "value is not an integer or out of range"))), db)
      /\ decr float_repr py_repr redis key db
         = (Return (VStr (decr_error key (lit "value is not an integer or out of range"))),
            db))
  /\ (forall l t, db !! k = Some (Entry (PList l) t) ->
      incr float_repr py_repr redis key db
      = (Return (VStr (incr_error key
           (lit "WRONGTYPE Operation against a key holding the wrong kind of value"))), db)
      /\ decr float_repr py_repr redis key db
         = (Return (VStr (decr_error key
              (lit "WRONGTYPE Operation against a key holding the wrong kind of value"))),
            db))
  /\ (forall t, db !! k = Some (Entry (PString (int_text (2 ^ 63 - 1))) t) ->
      incr float_repr py_repr redis key db
      = (Return (VStr (incr_error key (lit "increment or decrement would overflow"))), db))
  /\ (forall t, db !! k = Some (Entry (PString (int_text (- 2 ^ 63))) t) ->
      decr float_repr py_repr redis key db
      = (Return (VStr (decr_error key (lit "increment or decrement would overflow"))), db)).
Proof.
  intros Hk.
  destruct (incrby_elsewhere key k 1 db Hk) as (Hn & Ht & Hl).
  destruct (incrby_elsewhere key k (-1) db Hk) as (Hn' & Ht' & Hl').
  unfold incr, decr, try_except, bind, store, ret.
  cbn [get_connection execute store_execute].
  split; [| split; [| split; [| split]]].
  - intros Hdb. rewrite (Hn Hdb), (Hn' Hdb) by lia. split; reflexivity.
  - intros b t Hdb Hb. rewrite (Ht b t Hdb Hb), (Ht' b t Hdb Hb). split; reflexivity.
  - intros l t Hdb. rewrite (Hl l t Hdb), (Hl' l t Hdb). split; reflexivity.
  - intros t Hdb. unfold incrby, bind, lift, read, write, ret, wire.
    rewrite (encode_key _ _ Hk), Hdb, (parse_int_text (2 ^ 63 - 1)) by lia.
    reflexivity.
  - intros t Hdb. unfold incrby, bind, lift, read, write, ret, wire.
    rewrite (encode_key _ _ Hk), Hdb, (parse_int_text (- 2 ^ 63)) by lia.
    reflexivity.
Qed.

(** *** Writing a string value *)

Lemma encode_value_int (z : Z) :
  encode_value float_repr py_repr (VInt z) = Return (VBytes (int_text z)).
Proof.
  unfold encode_value, py_str, str_encode, int_repr.
  rewrite (utf8_encode_ascii _ (ascii_int_text z)). reflexivity.
Qed.

(** X11. A counter set through [set] counts on: after [set(key, z)] with
    an expiration the store accepts (none, 0, or a positive time that the
    server can keep), [incr] returns the text with [z + 1], the key holds
    [z + 1] with the time-to-live that [set] gave it, and [get] reads the
    decimal text of [z + 1]. *)
Theorem incr_after_set (key : pystr) (k : string) (z : Z) (expiration : option Z)
    (db : gmap string entry) :
  utf8_encode key = Some k ->
  accepted time_in_range expiration ->
  (- 2 ^ 63 <= z)%Z -> (z + 1 < 2 ^ 63)%Z ->
  incr float_repr py_repr redis key
    (snd (set float_repr py_repr redis key (VInt z) expiration db))
  = (Return (VStr (lit "Key " ++ key ++ lit " incremented to " ++ int_repr (z + 1))),
     <[k := Entry (PString (int_text (z + 1))) (if_int expiration)]> db)
  /\ fst (get redis key
            (snd (incr float_repr py_repr redis key
                    (snd (set float_repr py_repr redis key (VInt z) expiration db)))))
     = Return (VStr (int_repr (z + 1))).
Proof.
  intros Hk Ht Hlo Hhi.
  rewrite (set_on_store float_repr py_repr decode_responses float_incr reply_float time_in_range invalid_expire
             key k (int_text z) (VInt z) expiration db Hk (encode_value_int z) Ht).
  pose proof (incrby_on_store key k z 1 (if_int expiration)
                (<[k := Entry (PString (int_text z)) (if_int expiration)]> db) Hk
                (lookup_insert_eq _ _ _) ltac:(lia) ltac:(lia)) as H1.
  rewrite insert_insert_eq in H1.
  assert (Hi : incr float_repr py_repr redis key
                 (<[k := Entry (PString (int_text z)) (if_int expiration)]> db)
               = (Return (VStr (lit "Key " ++ key ++ lit " incremented to "
                                ++ int_repr (z + 1))),
                  <[k := Entry (PString (int_text (z + 1))) (if_int expiration)]> db)).
  { unfold incr, try_except, bind, store, ret. cbn [get_connection execute store_execute].
    rewrite H1. reflexivity. }
  rewrite Hi. cbn [snd]. split; [reflexivity |].
  rewrite (get_on_store float_repr decode_responses float_incr reply_float time_in_range invalid_expire _ _ _ Hk).
  rewrite lookup_insert_eq, (utf8_decode_ascii _ (ascii_int_text _)). reflexivity.
Qed.

(** X12. With expirations the store accepts (none, 0, or a positive
    time that the server can keep), [set] replaces whatever the key held:
    a list under the key is no obstacle, the value of an earlier [set]
    leaves no trace (the keyspace after two [set]s is the keyspace after
    the second alone), without an expiration the time-to-live is cleared,
    and no other key changes. *)
Theorem set_overwrites (key : pystr) (k b1 b2 : string) (v1 v2 : pyval)
    (e1 e2 : option Z) (db : gmap string entry) :
  utf8_encode key = Some k ->
  encode_value float_repr py_repr v1 = Return (VBytes b1) ->
  encode_value float_repr py_repr v2 = Return (VBytes b2) ->
  accepted time_in_range e1 -> accepted time_in_range e2 ->
  snd (set float_repr py_repr redis key v2 e2
         (snd (set float_repr py_repr redis key v1 e1 db)))
  = snd (set float_repr py_repr redis key v2 e2 db)
  /\ snd (set float_repr py_repr redis key v1 e1 db) !! k
     = Some (Entry (PString b1) (if_int e1))
  /\ (forall k', k' <> k ->
      snd (set float_repr py_repr redis key v1 e1 db) !! k' = db !! k').
Proof.
  intros Hk H1 H2 Ht1 Ht2.
  rewrite !(set_on_store float_repr py_repr decode_responses float_incr reply_float time_in_range invalid_expire
              key k b2 v2 e2 _ Hk H2 Ht2).
  rewrite !(set_on_store float_repr py_repr decode_responses float_incr reply_float time_in_range invalid_expire
              key k b1 v1 e1 _ Hk H1 Ht1).
  split; [apply insert_insert_eq | split].
  - apply lookup_insert_eq.
  - intros k' Hne. apply lookup_insert_ne. congruence.
Qed.

(** X13. [set] does not check the expiration: one below 0, or one too
    large for the server to keep, goes to the store with SETEX; the store
    refuses it, [set] returns its error text with the server's message,
    and nothing is written. *)
Theorem set_with_refused_expiration (key : pystr) (k b : string) (value : pyval)
    (t : Z) (db : gmap string entry) :
  utf8_encode key = Some k ->
  encode_value float_repr py_repr value = Return (VBytes b) ->
  int64 t = true ->
  (t < 0)%Z \/ ((0 < t)%Z /\ time_in_range t = false) ->
  set float_repr py_repr redis key value (Some t) db
  = (Return (VStr (set_error key (lit (invalid_expire "setex")))), db)
  /\ issued (fun r' => set float_repr py_repr r' key value (Some t)) redis db
     = [SETEX key t (VBytes b)].
Proof.
  intros Hk Hv Hi Ht.
  assert (Hz : (t =? 0)%Z = false) by (apply Z.eqb_neq; lia).
  assert (Hn : (t <=? 0)%Z || negb (time_in_range t) = true).
  { destruct Ht as [Ht | [_ Ht]].
    - rewrite (proj2 (Z.leb_le t 0)) by lia. reflexivity.
    - rewrite Ht. apply orb_true_r. }
  unfold issued, logged, set, try_except, bind, lift, store, ret, if_int.
  rewrite Hv, Hz. cbn [get_connection execute store_execute fst snd].
  unfold bind, lift, wire. rewrite (encode_key _ _ Hk), Hi, Hn. split; reflexivity.
Qed.

(** *** Lists *)

Lemma dump_dicts_length (l vals : list pyval) :
  dump_dicts float_repr l = Return vals -> length vals = length l.
Proof.
  revert vals. induction l as [| v l IH]; simpl; intros vals H.
  - injection H as <-. reflexivity.
  - destruct (dump_if_dict float_repr v); [| discriminate].
    destruct (dump_dicts float_repr l) as [xs |]; [| discriminate].
    injection H as <-. simpl. rewrite (IH xs eq_refl). reflexivity.
Qed.

Lemma wire_all_length (vals : list pyval) (bs : list string) :
  wire_all float_repr vals = Return bs -> length bs = length vals.
Proof.
  revert bs. induction vals as [| v vals IH]; simpl; intros bs H.
  - injection H as <-. reflexivity.
  - destruct (wire float_repr v); [| discriminate].
    destruct (wire_all float_repr vals) as [xs |]; [| discriminate].
    injection H as <-. simpl. rewrite (IH xs eq_refl). reflexivity.
Qed.

(** A push of at least one value onto a key that holds a list: the new
    elements go before or after the old ones, the time-to-live stays. *)
Lemma push_on_list (left : bool) (name : pystr) (k : string) (vals : list pyval)
    (bs old : list string) (t : option Z) (db : gmap string entry) :
  utf8_encode name = Some k -> db !! k = Some (Entry (PList old) t) ->
  wire_all float_repr vals = Return bs -> bs <> [] ->
  push float_repr left name vals db
  = (Return (VInt (Z.of_nat (length (if left then rev bs ++ old else old ++ bs)))),
     <[k := Entry (PList (if left then rev bs ++ old else old ++ bs)) t]> db).
Proof.
  intros Hk Hdb Hw Hne. unfold push, bind, lift, read, write, ret, wire.
  rewrite (encode_key _ _ Hk), Hw.
  destruct bs as [| b bs]; [destruct (Hne eq_refl) |].
  rewrite Hdb. cbn [fst snd].
  destruct left; [rewrite fold_left_push_head | rewrite fold_left_push_tail]; reflexivity.
Qed.

(** The tool's push of a whole list, from the store's push. *)
Lemma push_list_run (left : bool) (name : pystr) (L vals : list pyval) (n : Z)
    (db db' : gmap string entry) :
  dump_dicts float_repr L = Return vals ->
  push float_repr left name (if left then rev vals else vals) db = (Return (VInt n), db') ->
  (if left then lpush float_repr py_repr redis else rpush float_repr py_repr redis)
    name (VList L) None db
  = (Return (VStr (push_confirmation float_repr py_repr left name (VList L))), db').
Proof.
  intros Hd Hp.
  destruct left; unfold lpush, rpush, try_except, bind, lift, store, ret, expire_if, if_int;
    cbn [get_connection execute store_execute]; rewrite Hd, Hp; reflexivity.
Qed.

(** X14. [llen] on the store: 0 for a key that is not there, the number
    of elements for a list, the error text for a key that holds a string;
    and after a list [L] was pushed onto a key that is not there, by
    [lpush] or [rpush], [llen] returns the length of [L].  The result is
    an int on success and a text on failure. *)
Theorem llen_counts (name : pystr) (k : string) (db : gmap string entry) :
  utf8_encode name = Some k ->
  (db !! k = None -> llen redis name db = (Return (VInt 0), db))
  /\ (forall l t, db !! k = Some (Entry (PList l) t) ->
      llen redis name db = (Return (VInt (Z.of_nat (length l))), db))
  /\ (forall b t, db !! k = Some (Entry (PString b) t) ->
      llen redis name db
      = (Return (VStr (llen_error name
           (lit "WRONGTYPE Operation against a key holding the wrong kind of value"))), db))
  /\ (forall (left : bool) L vals bs,
        db !! k = None ->
        dump_dicts float_repr L = Return vals ->
        wire_all float_repr vals = Return bs ->
        fst (llen redis name
               (snd ((if left then lpush float_repr py_repr redis
                      else rpush float_repr py_repr redis) name (VList L) None db)))
        = Return (VInt (Z.of_nat (length L)))).
Proof.
  intros Hk.
  assert (Hl : forall db', llen redis name db'
            = (match db' !! k with
               | None => Return (VInt 0)
               | Some (Entry (PList l) _) => Return (VInt (Z.of_nat (length l)))
               | Some (Entry (PString _) _) =>
                   Return (VStr (llen_error name
                     (lit "WRONGTYPE Operation against a key holding the wrong kind of value")))
               end, db')).
  { intros db'. unfold llen, try_except, bind, lift, store, ret, read, wire.
    cbn [get_connection execute store_execute]. unfold bind, lift, read, ret, wire.
    rewrite (encode_key _ _ Hk).
    destruct (db' !! k) as [[[b | l] t] |]; reflexivity. }
  split; [| split; [| split]].
  - intros Hdb. rewrite Hl, Hdb. reflexivity.
  - intros l t Hdb. rewrite Hl, Hdb. reflexivity.
  - intros b t Hdb. rewrite Hl, Hdb. reflexivity.
  - intros left L vals bs Hdb Hd Hw. rewrite Hl.
    destruct (push_list_on_store float_repr py_repr decode_responses float_incr reply_float time_in_range invalid_expire
                left name k L vals bs db Hk Hdb Hd Hw) as (Hs & Hnil & _).
    unfold stored_list in Hs.
    rewrite <- (dump_dicts_length _ _ Hd), <- (wire_all_length _ _ Hw).
    destruct bs as [| b bs].
    + rewrite (Hnil eq_refl). reflexivity.
    + revert Hs. clear Hnil.
      destruct left;
        match goal with
        | |- context [?m !! k] => destruct (m !! k) as [[[b' | l] t] |]
        end; intros Hs; try discriminate Hs; rewrite Hs; reflexivity.
Qed.

(** X15. A push onto a key that already holds a list (the elements of
    [L] stored as the texts [ts], [L] not empty): [lpush] puts the new
    elements in front of the old ones, [rpush] behind them, both in the
    caller's order; the time-to-live of the key stays and the tool
    returns its confirmation.  On a key that holds a string the tool
    returns the error text and writes nothing. *)
Theorem push_onto_existing_list (name : pystr) (k : string) (L : list pyval)
    (ts : list pystr) (db : gmap string entry) :
  utf8_encode name = Some k ->
  Forall2 (stored_as_text float_repr) L ts ->
  L <> [] ->
  exists bs,
    Forall2 (fun b t => utf8_decode b = Some t) bs ts
    /\ (forall old t, db !! k = Some (Entry (PList old) t) ->
        lpush float_repr py_repr redis name (VList L) None db
        = (Return (VStr (push_confirmation float_repr py_repr true name (VList L))),
           <[k := Entry (PList (bs ++ old)) t]> db)
        /\ rpush float_repr py_repr redis name (VList L) None db
           = (Return (VStr (push_confirmation float_repr py_repr false name (VList L))),
              <[k := Entry (PList (old ++ bs)) t]> db))
    /\ (forall b t, db !! k = Some (Entry (PString b) t) ->
        lpush float_repr py_repr redis name (VList L) None db
        = (Return (VStr (push_error name
             (lit "WRONGTYPE Operation against a key holding the wrong kind of value"))), db)
        /\ rpush float_repr py_repr redis name (VList L) None db
           = (Return (VStr (push_error name
                (lit "WRONGTYPE Operation against a key holding the wrong kind of value"))),
              db)).
Proof.
  intros Hk HL Hne.
  destruct (stored_items float_repr L ts HL) as (vals & bs & Hd & Hw & Hts).
  exists bs. split; [exact Hts |].
  assert (Hbs : bs <> []).
  { intros ->. apply wire_all_nil in Hw as ->. destruct L; [congruence |].
    apply dump_dicts_length in Hd. discriminate. }
  assert (Hbs' : rev bs <> []).
  { intros H. apply (f_equal (@length _)) in H. rewrite length_rev in H.
    destruct bs; [congruence | discriminate]. }
  split.
  - intros old t Hdb.
    pose proof (push_on_list true name k (rev vals) (rev bs) old t db Hk Hdb
                  (wire_all_rev float_repr _ _ Hw) Hbs') as Hl.
    pose proof (push_on_list false name k vals bs old t db Hk Hdb Hw Hbs) as Hr.
    cbv beta iota in Hl, Hr. rewrite rev_involutive in Hl.
    split.
    + exact (push_list_run true name L vals _ db _ Hd Hl).
    + exact (push_list_run false name L vals _ db _ Hd Hr).
  - intros b t Hdb.
    assert (Hw' : wire_all float_repr (rev vals) = Return (rev bs))
      by exact (wire_all_rev float_repr _ _ Hw).
    split; unfold lpush, rpush, try_except, bind, lift, store, ret;
      cbn [get_connection execute store_execute]; rewrite Hd;
      unfold push, bind, lift, read, wire; rewrite (encode_key _ _ Hk), ?Hw', ?Hw.
    + destruct (rev bs); [congruence |]. rewrite Hdb. reflexivity.
    + destruct bs; [congruence |]. rewrite Hdb. reflexivity.
Qed.


(** *** Popping what was pushed *)

Lemma stored_list_cons (db : gmap string entry) (k b : string) (bs : list string) :
  stored_list db k = b :: bs -> exists t, db !! k = Some (Entry (PList (b :: bs)) t).
Proof.
  unfold stored_list. destruct (db !! k) as [[[b' | l] t] |]; try discriminate.
  intros ->. exists t. reflexivity.
Qed.

Lemma stored_list_after_pop (db : gmap string entry) (k : string) (rest : list string)
    (t : option Z) :
  stored_list match rest with
              | [] => delete k db
              | _ :: _ => <[k := Entry (PList rest) t]> db
              end k = rest.
Proof.
  unfold stored_list. destruct rest.
  - rewrite lookup_delete_eq. reflexivity.
  - rewrite lookup_insert_eq. reflexivity.
Qed.

(** X16. Pops take the ends of what was pushed.  On the store with
    replies decoded as text, after a list [L] whose elements are stored as
    the texts [ts] was pushed onto a key that is not there, by [lpush] or
    by [rpush]: [lpop] takes the first element of [L] off the list and
    [rpop] the last; the tool returns the element's text when that text
    is not empty, and the "empty or does not exist" text when it is. *)
Theorem pops_take_the_ends (side : bool) (name : pystr) (k : string) (L : list pyval)
    (ts : list pystr) (db : gmap string entry) :
  decode_responses = true ->
  utf8_encode name = Some k ->
  db !! k = None ->
  Forall2 (stored_as_text float_repr) L ts ->
  exists bs,
    Forall2 (fun b t => utf8_decode b = Some t) bs ts
    /\ (forall t ts', ts = t :: ts' ->
        fst (lpop redis name
               (snd ((if side then lpush float_repr py_repr redis
                      else rpush float_repr py_repr redis) name (VList L) None db)))
        = Return (VStr match t with [] => empty_list_message name | _ :: _ => t end)
        /\ stored_list
             (snd (lpop redis name
                     (snd ((if side then lpush float_repr py_repr redis
                            else rpush float_repr py_repr redis) name (VList L) None db))))
             k = tl bs)
    /\ (forall t ts', ts = ts' ++ [t] ->
        fst (rpop redis name
               (snd ((if side then lpush float_repr py_repr redis
                      else rpush float_repr py_repr redis) name (VList L) None db)))
        = Return (VStr match t with [] => empty_list_message name | _ :: _ => t end)
        /\ stored_list
             (snd (rpop redis name
                     (snd ((if side then lpush float_repr py_repr redis
                            else rpush float_repr py_repr redis) name (VList L) None db))))
             k = removelast bs).
Proof.
  intros Hdr Hk Hdb HL.
  destruct (stored_items float_repr L ts HL) as (vals & bs & Hd & Hw & Hts).
  exists bs. split; [exact Hts |].
  destruct (push_list_on_store float_repr py_repr decode_responses float_incr reply_float time_in_range invalid_expire
              side name k L vals bs db Hk Hdb Hd Hw) as (Hs & _ & _).
  assert (Hreply : forall b t, utf8_decode b = Some t ->
            reply_bulk decode_responses b = Return (VStr t)).
  { intros b t Hb. unfold reply_bulk, bytes_decode. rewrite Hb, Hdr. reflexivity. }
  clear Hdr.
  assert (Htr : forall t : pystr,
            (if truthy (VStr t) then VStr t else VStr (empty_list_message name))
            = VStr match t with [] => empty_list_message name | _ :: _ => t end)
    by (intros [| c t]; reflexivity).
  set (db1 := snd ((if side then lpush float_repr py_repr redis
                    else rpush float_repr py_repr redis) name (VList L) None db)) in *.
  clearbody db1. split.
  - intros t ts' ->. destruct bs as [| b bs']; [inversion Hts |].
    inversion Hts as [| ? ? ? ? Hb Hbs']; subst.
    destruct (stored_list_cons _ _ _ _ Hs) as [t0 Hdb1].
    pose proof (pop_on_store float_repr decode_responses float_incr reply_float time_in_range invalid_expire true name k
                  (b :: bs') bs' b (VStr t) t0 db1 Hk Hdb1 eq_refl (Hreply _ _ Hb)) as Hp.
    cbv beta iota in Hp. rewrite Hp, Htr. cbn [fst snd tl].
    split; [reflexivity | apply stored_list_after_pop].
  - intros t ts' ->.
    apply Forall2_app_inv_r in Hts as (bs' & bl & Hbs' & Hbl & ->).
    inversion Hbl as [| b t' bn tn Hb Hn]; subst. inversion Hn; subst.
    assert (Hs' : stored_list db1 k = match bs' ++ [b] with
                                      | [] => []
                                      | x :: l => x :: l
                                      end) by (rewrite Hs; destruct (bs' ++ [b]); reflexivity).
    destruct (bs' ++ [b]) as [| x l] eqn:Hx; [destruct bs'; discriminate |].
    destruct (stored_list_cons _ _ _ _ Hs') as [t0 Hdb1].
    pose proof (pop_on_store float_repr decode_responses float_incr reply_float time_in_range invalid_expire false name k
                  (x :: l) (rev bs') b (VStr t) t0 db1 Hk Hdb1
                  ltac:(rewrite <- Hx, rev_app_distr; reflexivity) (Hreply _ _ Hb)) as Hp.
    cbv beta iota in Hp. rewrite Hp, Htr. cbn [fst snd]. rewrite rev_involutive.
    split; [reflexivity |].
    rewrite stored_list_after_pop, <- Hx, removelast_last. reflexivity.
Qed.

(** X17. The edges of popping on the store: on a key that is not there a
    pop returns the "empty or does not exist" text and changes nothing;
    on a key that holds a string it returns the error text and changes
    nothing; the pop of the only element of a list removes the key, so a
    further pop finds nothing. *)
Theorem pop_at_the_edges (left : bool) (name : pystr) (k : string)
    (db : gmap string entry) :
  utf8_encode name = Some k ->
  (db !! k = None ->
   (if left then lpop redis else rpop redis) name db
   = (Return (VStr (empty_list_message name)), db))
  /\ (forall b t, db !! k = Some (Entry (PString b) t) ->
      (if left then lpop redis else rpop redis) name db
      = (Return (VStr (pop_error name
           (lit "WRONGTYPE Operation against a key holding the wrong kind of value"))), db))
  /\ (forall x t v, db !! k = Some (Entry (PList [x]) t) ->
      reply_bulk decode_responses x = Return v ->
      snd ((if left then lpop redis else rpop redis) name db) = delete k db
      /\ (if left then lpop redis else rpop redis) name (delete k db)
         = (Return (VStr (empty_list_message name)), delete k db)).
Proof.
  intros Hk.
  assert (Hnone : forall db', db' !! k = None ->
            (if left then lpop redis else rpop redis) name db'
            = (Return (VStr (empty_list_message name)), db')).
  { intros db' Hdb'.
    destruct left; unfold lpop, rpop, try_except, bind, store, ret;
      cbn [get_connection execute store_execute];
      unfold pop, bind, lift, read, ret, wire; rewrite (encode_key _ _ Hk), Hdb';
      reflexivity. }
  split; [exact (Hnone db) | split].
  - intros b t Hdb.
    destruct left; unfold lpop, rpop, try_except, bind, store, ret;
      cbn [get_connection execute store_execute];
      unfold pop, bind, lift, read, ret, wire; rewrite (encode_key _ _ Hk), Hdb;
      reflexivity.
  - intros x t v Hdb Hv. split.
    + pose proof (pop_on_store float_repr decode_responses float_incr reply_float time_in_range invalid_expire left name k
                    [x] [] x v t db Hk Hdb ltac:(destruct left; reflexivity) Hv) as Hp.
      rewrite Hp. destruct left; reflexivity.
    + apply Hnone, lookup_delete_eq.
Qed.


(** *** A push with an expiration *)

(** EXPIRE on a key that is there: a time that the server cannot keep is
    refused, a time above 0 is recorded, any other removes the key. *)
Lemma expire_on_store (name : pystr) (k : string) (d : payload) (t0 : option Z) (t : Z)
    (db : gmap string entry) :
  utf8_encode name = Some k ->
  db !! k = Some (Entry d t0) ->
  store_execute float_repr decode_responses float_incr reply_float time_in_range
    invalid_expire (EXPIRE name t) db
  = if int64 t && time_in_range t
    then (Return (VBool true),
          if (t <=? 0)%Z then delete k db else <[k := Entry d (Some t)]> db)
    else (response_error
            (if int64 t then invalid_expire "expire"
             else "value is not an integer or out of range"), db).
Proof.
  intros Hk Hdb. unfold store_execute, bind, lift, read, write, ret, wire.
  rewrite (encode_key _ _ Hk), Hdb.
  destruct (int64 t); [destruct (time_in_range t) |]; reflexivity.
Qed.

(** X18. A push with an expiration onto a key that is not there, on the
    store.  Without an expiration, or with 0, the tool confirms and the
    new list has no time-to-live.  With a time that the server can keep
    the tool confirms: a time above 0 is the list's time-to-live; with
    one below 0 the store removes the key at once, so the keyspace is as
    before the push although the push is confirmed.  With a time that the
    server cannot keep, EXPIRE is refused after the push was carried out:
    the tool returns the push error text, and the list is there without
    time-to-live. *)
Theorem push_with_expiration_on_store (left : bool) (name : pystr) (k : string)
    (value : pyval) (vals : list pyval) (bs : list string) (expire : option Z)
    (db : gmap string entry) :
  utf8_encode name = Some k ->
  db !! k = None ->
  push_values float_repr left value = Return vals ->
  wire_all float_repr vals = Return bs ->
  bs <> [] ->
  (if left then lpush float_repr py_repr redis else rpush float_repr py_repr redis)
    name value expire db
  = match if_int expire with
    | None =>
        (Return (VStr (push_confirmation float_repr py_repr left name value)),
         <[k := Entry (PList (if left then rev bs else bs)) None]> db)
    | Some t =>
        if int64 t && time_in_range t
        then (Return (VStr (push_confirmation float_repr py_repr left name value)),
              if (t <=? 0)%Z then db
              else <[k := Entry (PList (if left then rev bs else bs)) (Some t)]> db)
        else (Return (VStr (push_error name
                              (lit (if int64 t then invalid_expire "expire"
                                    else "value is not an integer or out of range")))),
              <[k := Entry (PList (if left then rev bs else bs)) None]> db)
    end.
Proof.
  intros Hk Hdb Hv Hw Hne.
  assert (Hp : store_execute float_repr decode_responses float_incr reply_float
                 time_in_range invalid_expire (push_command left name vals) db
               = (Return (VInt (Z.of_nat (length bs))),
                  <[k := Entry (PList (if left then rev bs else bs)) None]> db))
    by (destruct left; exact (push_on_store float_repr _ name k vals bs db Hk Hdb Hw Hne)).
  unfold push_command in Hp.
  assert (He : forall t,
            store_execute float_repr decode_responses float_incr reply_float
              time_in_range invalid_expire (EXPIRE name t)
              (<[k := Entry (PList (if left then rev bs else bs)) None]> db)
            = if int64 t && time_in_range t
              then (Return (VBool true),
                    if (t <=? 0)%Z then db
                    else <[k := Entry (PList (if left then rev bs else bs)) (Some t)]> db)
              else (response_error
                      (if int64 t then invalid_expire "expire"
                       else "value is not an integer or out of range"),
                    <[k := Entry (PList (if left then rev bs else bs)) None]> db)).
  { intros t. rewrite (expire_on_store name k _ None t _ Hk (lookup_insert_eq _ _ _)).
    rewrite (delete_insert_id _ _ _ Hdb), insert_insert_eq. reflexivity. }
  unfold push_values in Hv. unfold push_confirmation.
  destruct left; destruct value; cbn beta iota in Hv;
    repeat match type of Hv with
    | context [match ?x with _ => _ end] => destruct x eqn:?; try discriminate Hv
    end;
    injection Hv as <-;
    unfold lpush, rpush, try_except, bind, lift, store, ret, expire_if;
    cbn [get_connection execute];
    repeat match goal with
    | H : ?x = Return _ |- context [?x] => rewrite H
    end;
    cbn beta iota; rewrite Hp; cbn beta iota;
    (destruct (if_int expire) as [t |];
     [unfold bind, ret; rewrite He; destruct (int64 t && time_in_range t) |]);
    reflexivity.
Qed.

End FurtherStoreLaws.

(** ** Which values convert *)

Lemma utf8_encode_scalar (s : pystr) :
  is_Some (utf8_encode s) <-> forallb scalar s = true.
Proof.
  split; [| apply utf8_encode_total].
  induction s as [| c s IH]; intros [b Hb]; [reflexivity |].
  change (utf8_encode (c :: s))
    with (match utf8_char c, utf8_encode s with
          | Some bs, Some rest => Some (string_of_list_ascii bs ++ rest)%string
          | _, _ => None
          end) in Hb.
  destruct (utf8_char c) as [bs |] eqn:Hc; [| discriminate].
  destruct (utf8_encode s) as [r |]; [| discriminate].
  cbn [forallb]. rewrite (proj1 (utf8_char_scalar c)) by (rewrite Hc; eauto).
  rewrite IH by eauto. reflexivity.
Qed.

Section ConversionLaws.

Variable float_repr : float -> string.
Variable py_repr : pyval -> pystr.

(** X19. What [set] makes of a value before it reaches the store.  A
    text converts exactly when it holds no lone surrogate (and no code
    point above 0x10FFFF): otherwise [str.encode] raises
    [UnicodeEncodeError]; the bytes of a text that converts decode back
    to it.  [None], a bool, a float and bytes convert, and so does an int
    within the digit limit of [str].  For a dictionary the conversion
    follows [json.dumps]: when [json.dumps] returns a text the conversion
    returns bytes that decode to that text, the JSON text being escaped
    ASCII that always encodes; when [json.dumps] raises, the conversion
    raises the same exception. *)
Theorem conversion_outcomes :
  (forall s, encode_value float_repr py_repr (VStr s) = Raise UnicodeEncodeError
             <-> forallb scalar s = false)
  /\ (forall s, forallb scalar s = true ->
        exists b, encode_value float_repr py_repr (VStr s) = Return (VBytes b)
                  /\ utf8_decode b = Some s)
  /\ (forall v, match v with
                | VNone | VBool _ | VFloat _ | VBytes _ =>
                    exists b, encode_value float_repr py_repr v = Return (VBytes b)
                | _ => True
                end)
  /\ (forall z, (Z.abs z < 10 ^ 4300)%Z ->
        exists b, encode_value float_repr py_repr (VInt z) = Return (VBytes b)
                  /\ utf8_decode b = Some (int_repr z))
  /\ (forall d s, json_dumps float_repr (VDict d) = Return s ->
        exists b, encode_value float_repr py_repr (VDict d) = Return (VBytes b)
                  /\ utf8_decode b = Some s)
  /\ (forall d e, json_dumps float_repr (VDict d) = Raise e ->
        encode_value float_repr py_repr (VDict d) = Raise e).
Proof.
  assert (text : forall s, forallb scalar s = true ->
            exists b, str_encode s = Return b /\ utf8_decode b = Some s).
  { intros s Hs. destruct (utf8_encode_total s Hs) as [b Hb]. exists b.
    unfold str_encode. rewrite Hb. split; [reflexivity | exact (utf8_roundtrip s b Hb)]. }
  split; [| split; [| split; [| split; [| split]]]].
  - intros s. unfold encode_value, str_encode, py_str.
    pose proof (utf8_encode_scalar s) as Hs.
    destruct (utf8_encode s) as [b |]; destruct (forallb scalar s);
      split; intros H; try reflexivity; try discriminate.
    + assert (X : false = true) by (apply Hs; eauto). discriminate.
    + destruct (proj2 Hs eq_refl) as [? [=]].
  - intros s Hs. destruct (text s Hs) as (b & Hb & Hb'). exists b.
    unfold encode_value, py_str. rewrite Hb. split; [reflexivity | exact Hb'].
  - intros v. destruct v as [| [] | z | f | s | b | l | d]; try exact I;
      try (exists b; reflexivity);
      unfold encode_value, py_str;
      match goal with
      | |- context [str_encode (lit ?x)] =>
          destruct (text (lit x) (small_scalar _ (small_lit x))) as (b' & Hb & _);
          exists b'; rewrite Hb; reflexivity
      end.
  - intros z _. unfold encode_value, py_str, int_repr.
    destruct (text (lit (int_text z)) (small_scalar _ (small_lit _))) as (b & Hb & Hb').
    exists b. rewrite Hb. split; [reflexivity | exact Hb'].
  - intros d s Hs. unfold encode_value. rewrite Hs.
    destruct (json_dumps_roundtrip float_repr _ _ Hs) as (b & Hb & Hb').
    unfold str_encode. rewrite Hb. exists b. auto.
  - intros d e Hs. unfold encode_value. rewrite Hs. reflexivity.
Qed.

End ConversionLaws.

(** ** The further properties at concrete inputs *)

#[local] Transparent lit.

Lemma set_converts_before_connecting_witness :
  set plain_float plain_repr bytes_store (lit "k") (VStr [0xD800]) None ∅
  = (Raise UnicodeEncodeError, ∅)
  /\ issued (fun r' => set plain_float plain_repr r' (lit "k") (VStr [0xD800]) None)
       bytes_store ∅
     = [].
Proof.
  exact (proj1 (set_converts_before_connecting plain_float plain_repr bytes_store
                  (lit "k") (VStr [0xD800]) None ∅) UnicodeEncodeError eq_refl).
Defined.

Lemma get_never_returns_none_witness :
  get text_store (lit "k") ∅ = (Return (VStr (missing_key_message (lit "k"))), ∅)
  /\ get text_store (lit "k") {["k"%string := Entry (PString "v") None]}
     = (Return (VStr (lit "v")), {["k"%string := Entry (PString "v") None]}).
Proof.
  split.
  - exact (proj1 (proj2 (get_never_returns_none text_store (lit "k") ∅)) ∅ ∅
             eq_refl eq_refl).
  - exact (proj2 (proj2 (get_never_returns_none text_store (lit "k")
                           {["k"%string := Entry (PString "v") None]}))
             (lit "v") _ _ eq_refl eq_refl).
Defined.

Lemma pop_result_is_truthy_witness :
  lpop text_store (lit "q") {["q"%string := Entry (PList ["a"; "b"]%string) None]}
  = (Return (VStr (lit "a")), {["q"%string := Entry (PList ["b"%string]) None]}).
Proof.
  exact (proj2 (pop_result_is_truthy text_store true (lit "q")
                  {["q"%string := Entry (PList ["a"; "b"]%string) None]})
           (VStr (lit "a")) _ _ eq_refl eq_refl).
Defined.

Lemma lrange_by_reply_witness :
  lrange plain_float bytes_store (lit "q") 0 (-1)
    {["q"%string := Entry (PList ["a"%string]) None]}
  = (Raise TypeError, {["q"%string := Entry (PList ["a"%string]) None]})
  /\ lrange plain_float text_store (lit "q") 0 (-1)
       {["q"%string := Entry (PList ["a"%string]) None]}
     = (Return (VStr (lit "[" ++ join_comma (map json_string [lit "a"]) ++ lit "]")),
        {["q"%string := Entry (PList ["a"%string]) None]}).
Proof.
  split.
  - pose proof (lrange_by_reply plain_float bytes_store (lit "q") 0 (-1) [VBytes "a"]
                  {["q"%string := Entry (PList ["a"%string]) None]}
                  {["q"%string := Entry (PList ["a"%string]) None]}
                  {["q"%string := Entry (PList ["a"%string]) None]}
                  eq_refl eq_refl) as H.
    exact (proj2 (proj2 H) "a"%string (or_introl eq_refl)).
  - pose proof (lrange_by_reply plain_float text_store (lit "q") 0 (-1) [VStr (lit "a")]
                  {["q"%string := Entry (PList ["a"%string]) None]}
                  {["q"%string := Entry (PList ["a"%string]) None]}
                  {["q"%string := Entry (PList ["a"%string]) None]}
                  eq_refl eq_refl) as H.
    exact (proj1 (proj2 H) [lit "a"] ltac:(discriminate) eq_refl).
Defined.

Lemma push_then_expire_witness :
  issued (fun r' => lpush plain_float plain_repr r' (lit "q") (VStr (lit "a")) (Some 10%Z))
    text_store ∅
  = [LPUSH (lit "q") [VStr (lit "a")]; EXPIRE (lit "q") 10]
  /\ lpush plain_float plain_repr text_store (lit "q") (VStr (lit "a")) (Some 10%Z) ∅
     = (Return (VStr (lit "Value(s) 'a' pushed to the left of list 'q'.")),
        {["q"%string := Entry (PList ["a"%string]) (Some 10%Z)]}).
Proof.
  assert (Hpush : execute text_store (push_command true (lit "q") [VStr (lit "a")]) ∅
                  = (Return (VInt 1), {["q"%string := Entry (PList ["a"%string]) None]}))
    by (vm_compute; reflexivity).
  assert (Hexp : execute text_store (EXPIRE (lit "q") 10)
                   {["q"%string := Entry (PList ["a"%string]) None]}
                 = (Return (VBool true),
                    {["q"%string := Entry (PList ["a"%string]) (Some 10%Z)]}))
    by (vm_compute; reflexivity).
  destruct (proj2 (proj2 (push_then_expire plain_float plain_repr text_store true
                            (lit "q") (VStr (lit "a")) (Some 10%Z) [VStr (lit "a")] ∅ ∅
                            eq_refl eq_refl) _ _ Hpush)
              10%Z eq_refl) as (Hi & _ & Hok).
  split; [exact Hi |].
  exact (Hok _ _ Hexp).
Defined.

Lemma incr_then_decr_restores_witness :
  incr plain_float plain_repr bytes_store (lit "n")
    {["n"%string := Entry (PString "5") None]}
  = (Return (VStr (lit "Key n incremented to 6")),
     <["n"%string := Entry (PString "6") None]>
       {["n"%string := Entry (PString "5") None]})
  /\ decr plain_float plain_repr bytes_store (lit "n")
       (snd (incr plain_float plain_repr bytes_store (lit "n")
               {["n"%string := Entry (PString "5") None]}))
     = (Return (VStr (lit "Key n decremented to 5")),
        {["n"%string := Entry (PString "5") None]}).
Proof.
  assert (Hdb : ({["n"%string := Entry (PString "5") None]} : gmap string entry)
                  !! "n"%string
                = Some (Entry (PString (int_text 5)) None))
    by (vm_compute; reflexivity).
  destruct (incr_then_decr_restores plain_float plain_repr false no_floats no_reply milliseconds_fit invalid_expire_text (lit "n") "n" 5 None _ eq_refl Hdb
              ltac:(lia) ltac:(lia)) as (Hi & _ & Hd).
  split; [exact Hi | exact Hd].
Defined.

Lemma incr_outside_the_integers_witness :
  incr plain_float plain_repr bytes_store (lit "n") ∅
  = (Return (VStr (lit "Key n incremented to 1")),
     {["n"%string := Entry (PString "1") None]})
  /\ incr plain_float plain_repr bytes_store (lit "n")
       {["n"%string := Entry (PString "abc") None]}
     = (Return (VStr (lit "Error incrementing key n: value is not an integer or out of range")),
        {["n"%string := Entry (PString "abc") None]}).
Proof.
  assert (H0 : (∅ : gmap string entry) !! "n"%string = None) by (vm_compute; reflexivity).
  assert (H1 : ({["n"%string := Entry (PString "abc") None]} : gmap string entry)
                 !! "n"%string
               = Some (Entry (PString "abc") None)) by (vm_compute; reflexivity).
  assert (H2 : parse_int "abc" = None) by (vm_compute; reflexivity).
  split.
  - exact (proj1 (proj1 (incr_outside_the_integers plain_float plain_repr false no_floats no_reply milliseconds_fit invalid_expire_text (lit "n") "n" _ eq_refl) H0)).
  - exact (proj1 (proj1 (proj2 (incr_outside_the_integers plain_float plain_repr false
                                  no_floats no_reply milliseconds_fit invalid_expire_text (lit "n") "n" _ eq_refl))
                    _ _ H1 H2)).
Defined.

Lemma incr_after_set_witness :
  incr plain_float plain_repr bytes_store (lit "n")
    (snd (set plain_float plain_repr bytes_store (lit "n") (VInt 5) (Some 60%Z) ∅))
  = (Return (VStr (lit "Key n incremented to 6")),
     {["n"%string := Entry (PString "6") (Some 60%Z)]})
  /\ fst (get bytes_store (lit "n")
            (snd (incr plain_float plain_repr bytes_store (lit "n")
                    (snd (set plain_float plain_repr bytes_store (lit "n") (VInt 5)
                            (Some 60%Z) ∅)))))
     = Return (VStr (lit "6")).
Proof.
  assert (Ht : accepted milliseconds_fit (Some 60%Z)) by (vm_compute; auto).
  exact (incr_after_set plain_float plain_repr false no_floats no_reply milliseconds_fit invalid_expire_text
           (lit "n") "n" 5 (Some 60%Z) ∅ eq_refl Ht ltac:(lia) ltac:(lia)).
Defined.

Lemma set_overwrites_witness :
  snd (set plain_float plain_repr bytes_store (lit "k") (VStr (lit "b")) None
         (snd (set plain_float plain_repr bytes_store (lit "k") (VStr (lit "a"))
                 (Some 60%Z) {["k"%string := Entry (PList ["x"%string]) None]})))
  = snd (set plain_float plain_repr bytes_store (lit "k") (VStr (lit "b")) None
           {["k"%string := Entry (PList ["x"%string]) None]})
  /\ snd (set plain_float plain_repr bytes_store (lit "k") (VStr (lit "a")) (Some 60%Z)
            {["k"%string := Entry (PList ["x"%string]) None]}) !! "k"%string
     = Some (Entry (PString "a") (Some 60%Z)).
Proof.
  assert (Ht : accepted milliseconds_fit (Some 60%Z)) by (vm_compute; auto).
  destruct (set_overwrites plain_float plain_repr false no_floats no_reply milliseconds_fit invalid_expire_text
              (lit "k") "k" "a" "b" (VStr (lit "a")) (VStr (lit "b")) (Some 60%Z) None
              {["k"%string := Entry (PList ["x"%string]) None]}
              eq_refl eq_refl eq_refl Ht I) as (H1 & H2 & _).
  split; [exact H1 | exact H2].
Defined.

Lemma set_with_refused_expiration_witness :
  set plain_float plain_repr bytes_store (lit "k") (VStr (lit "v")) (Some (-5)%Z) ∅
  = (Return (VStr (lit "Error setting key k: invalid expire time in 'setex' command")), ∅)
  /\ issued (fun r' => set plain_float plain_repr r' (lit "k") (VStr (lit "v"))
                         (Some (-5)%Z)) bytes_store ∅
     = [SETEX (lit "k") (-5) (VBytes "v")]
  /\ set plain_float plain_repr bytes_store (lit "k") (VStr (lit "v"))
       (Some (2 ^ 63 - 1)%Z) ∅
     = (Return (VStr (lit "Error setting key k: invalid expire time in 'setex' command")),
        ∅).
Proof.
  pose proof (set_with_refused_expiration plain_float plain_repr false no_floats no_reply
                milliseconds_fit invalid_expire_text (lit "k") "k" "v" (VStr (lit "v"))
                (-5) ∅ eq_refl eq_refl eq_refl (or_introl eq_refl)) as [H1 H2].
  pose proof (set_with_refused_expiration plain_float plain_repr false no_floats no_reply
                milliseconds_fit invalid_expire_text (lit "k") "k" "v" (VStr (lit "v"))
                (2 ^ 63 - 1) ∅ eq_refl eq_refl eq_refl
                (or_intror (conj eq_refl eq_refl))) as [H3 _].
  split; [exact H1 |]. split; [exact H2 | exact H3].
Defined.

Lemma llen_counts_witness :
  llen text_store (lit "q") ∅ = (Return (VInt 0), ∅)
  /\ fst (llen text_store (lit "q")
            (snd (rpush plain_float plain_repr text_store (lit "q")
                    (VList [VStr (lit "a"); VInt 2]) None ∅)))
     = Return (VInt 2).
Proof.
  assert (H0 : (∅ : gmap string entry) !! "q"%string = None) by (vm_compute; reflexivity).
  assert (Hw : wire_all plain_float [VStr (lit "a"); VInt 2] = Return ["a"; "2"]%string)
    by (vm_compute; reflexivity).
  destruct (llen_counts plain_float plain_repr true no_floats no_reply milliseconds_fit invalid_expire_text
              (lit "q") "q" ∅ eq_refl) as (Hn & _ & _ & Hp).
  split; [exact (Hn H0) |].
  exact (Hp false [VStr (lit "a"); VInt 2] _ _ H0 eq_refl Hw).
Defined.

Lemma push_onto_existing_list_witness :
  exists bs,
    Forall2 (fun b t => utf8_decode b = Some t) bs [lit "a"; lit "b"]
    /\ lpush plain_float plain_repr text_store (lit "q")
         (VList [VStr (lit "a"); VStr (lit "b")]) None
         {["q"%string := Entry (PList ["x"%string]) (Some 60%Z)]}
       = (Return (VStr (push_confirmation plain_float plain_repr true (lit "q")
                          (VList [VStr (lit "a"); VStr (lit "b")]))),
          <["q"%string := Entry (PList (bs ++ ["x"%string])) (Some 60%Z)]>
            {["q"%string := Entry (PList ["x"%string]) (Some 60%Z)]})
    /\ rpush plain_float plain_repr text_store (lit "q")
         (VList [VStr (lit "a"); VStr (lit "b")]) None
         {["q"%string := Entry (PList ["x"%string]) (Some 60%Z)]}
       = (Return (VStr (push_confirmation plain_float plain_repr false (lit "q")
                          (VList [VStr (lit "a"); VStr (lit "b")]))),
          <["q"%string := Entry (PList (["x"%string] ++ bs)) (Some 60%Z)]>
            {["q"%string := Entry (PList ["x"%string]) (Some 60%Z)]}).
Proof.
  assert (HL : Forall2 (stored_as_text plain_float) [VStr (lit "a"); VStr (lit "b")]
                 [lit "a"; lit "b"])
    by (repeat constructor; eexists; split; reflexivity).
  assert (Hne : [VStr (lit "a"); VStr (lit "b")] <> []) by discriminate.
  assert (Hdb : ({["q"%string := Entry (PList ["x"%string]) (Some 60%Z)]}
                   : gmap string entry) !! "q"%string
                = Some (Entry (PList ["x"%string]) (Some 60%Z)))
    by (vm_compute; reflexivity).
  destruct (push_onto_existing_list plain_float plain_repr true no_floats no_reply milliseconds_fit invalid_expire_text
              (lit "q") "q" _ _
              {["q"%string := Entry (PList ["x"%string]) (Some 60%Z)]} eq_refl HL Hne)
    as (bs & Hts & Hl & _).
  exists bs. split; [exact Hts |].
  exact (Hl _ _ Hdb).
Defined.

Lemma pops_take_the_ends_witness :
  exists bs,
    Forall2 (fun b t => utf8_decode b = Some t) bs [lit "a"; lit "b"]
    /\ fst (lpop text_store (lit "q")
              (snd (rpush plain_float plain_repr text_store (lit "q")
                      (VList [VStr (lit "a"); VStr (lit "b")]) None ∅)))
       = Return (VStr (lit "a"))
    /\ fst (rpop text_store (lit "q")
              (snd (rpush plain_float plain_repr text_store (lit "q")
                      (VList [VStr (lit "a"); VStr (lit "b")]) None ∅)))
       = Return (VStr (lit "b")).
Proof.
  assert (HL : Forall2 (stored_as_text plain_float) [VStr (lit "a"); VStr (lit "b")]
                 [lit "a"; lit "b"])
    by (repeat constructor; eexists; split; reflexivity).
  assert (H0 : (∅ : gmap string entry) !! "q"%string = None) by (vm_compute; reflexivity).
  destruct (pops_take_the_ends plain_float plain_repr true no_floats no_reply milliseconds_fit invalid_expire_text
              false (lit "q") "q" _ _ ∅ eq_refl eq_refl H0 HL)
    as (bs & Hts & Hl & Hr).
  exists bs. split; [exact Hts |]. split.
  - exact (proj1 (Hl (lit "a") [lit "b"] eq_refl)).
  - exact (proj1 (Hr (lit "b") [lit "a"] eq_refl)).
Defined.

Lemma pop_at_the_edges_witness :
  rpop text_store (lit "q") ∅ = (Return (VStr (empty_list_message (lit "q"))), ∅)
  /\ snd (lpop text_store (lit "q") {["q"%string := Entry (PList ["a"%string]) None]})
     = delete "q"%string {["q"%string := Entry (PList ["a"%string]) None]}.
Proof.
  assert (H0 : (∅ : gmap string entry) !! "q"%string = None) by (vm_compute; reflexivity).
  assert (H1 : ({["q"%string := Entry (PList ["a"%string]) None]} : gmap string entry)
                 !! "q"%string
               = Some (Entry (PList ["a"%string]) None)) by (vm_compute; reflexivity).
  assert (H2 : reply_bulk true "a" = Return (VStr (lit "a"))) by (vm_compute; reflexivity).
  split.
  - exact (proj1 (pop_at_the_edges plain_float true no_floats no_reply milliseconds_fit invalid_expire_text
                    false (lit "q") "q" _ eq_refl) H0).
  - exact (proj1 (proj2 (proj2 (pop_at_the_edges plain_float true no_floats no_reply milliseconds_fit invalid_expire_text true (lit "q") "q" _ eq_refl))
                    _ _ _ H1 H2)).
Defined.

Lemma push_with_expiration_on_store_witness :
  lpush plain_float plain_repr text_store (lit "q")
    (VList [VStr (lit "a"); VStr (lit "b")]) (Some (-1)%Z) ∅
  = (Return (VStr (push_confirmation plain_float plain_repr true (lit "q")
                     (VList [VStr (lit "a"); VStr (lit "b")]))), ∅)
  /\ lpush plain_float plain_repr text_store (lit "q")
       (VList [VStr (lit "a"); VStr (lit "b")]) (Some (2 ^ 63 - 1)%Z) ∅
     = (Return (VStr (lit "Error pushing value(s) to list 'q': invalid expire time in 'expire' command")),
        {["q"%string := Entry (PList ["a"; "b"]%string) None]}).
Proof.
  assert (H0 : (∅ : gmap string entry) !! "q"%string = None) by (vm_compute; reflexivity).
  assert (Hv : push_values plain_float true (VList [VStr (lit "a"); VStr (lit "b")])
               = Return [VStr (lit "b"); VStr (lit "a")]) by (vm_compute; reflexivity).
  assert (Hw : wire_all plain_float [VStr (lit "b"); VStr (lit "a")]
               = Return ["b"; "a"]%string) by (vm_compute; reflexivity).
  assert (Hne : ["b"; "a"]%string <> []) by discriminate.
  split.
  - exact (push_with_expiration_on_store plain_float plain_repr true no_floats no_reply
             milliseconds_fit invalid_expire_text true (lit "q") "q" _ _ _ (Some (-1)%Z) ∅
             eq_refl H0 Hv Hw Hne).
  - exact (push_with_expiration_on_store plain_float plain_repr true no_floats no_reply
             milliseconds_fit invalid_expire_text true (lit "q") "q" _ _ _
             (Some (2 ^ 63 - 1)%Z) ∅ eq_refl H0 Hv Hw Hne).
Defined.

Lemma conversion_outcomes_witness :
  encode_value plain_float plain_repr (VStr [0xD800]) = Raise UnicodeEncodeError
  /\ (exists b, encode_value plain_float plain_repr (VStr (lit "v")) = Return (VBytes b)
                /\ utf8_decode b = Some (lit "v"))
  /\ (exists b, encode_value plain_float plain_repr (VInt 42) = Return (VBytes b)
                /\ utf8_decode b = Some (int_repr 42))
  /\ (exists b, encode_value plain_float plain_repr (VDict [(KStr [0xD800], VBool true)])
                = Return (VBytes b)
                /\ utf8_decode b
                   = Some (lit "{" ++ [34] ++ lit "\ud800" ++ [34] ++ lit ": true}"))
  /\ encode_value plain_float plain_repr (VDict [(KStr (lit "a"), VBytes "x")])
     = Raise TypeError.
Proof.
  pose proof (conversion_outcomes plain_float plain_repr) as (H1 & H2 & _ & H4 & H5 & H6).
  assert (Hz : (Z.abs 42 < 10 ^ 4300)%Z) by (vm_compute; reflexivity).
  split; [exact (proj2 (H1 [0xD800]) eq_refl) |].
  split; [exact (H2 (lit "v") eq_refl) |].
  split; [exact (H4 42%Z Hz) |].
  split; [exact (H5 [(KStr [0xD800], VBool true)] _ eq_refl) |].
  exact (H6 [(KStr (lit "a"), VBytes "x")] TypeError eq_refl).
Defined.
